(** * Nationcraft X-ray chunk analysis: [Xray/detection_chunk.py]

    A shallow embedding of the block scanner, the per-chunk block counter
    and the world analyzer of [detection_chunk.py], followed by the
    properties established about them.

    Python integers are [Z], Python strings are [string], [None] is the
    [None] of [option].  A Python [dict] keeps its keys in insertion order,
    which the report printed by [analyze_world_chunks] exposes; it is
    therefore an association list, updated in place when the key exists and
    extended at the end when it does not.  The [chunks] module (file
    discovery, chunk enumeration, block decoding) is an interface whose calls
    may raise and act on the outside world. *)

From Stdlib Require Import ZArith String Ascii List Lia.
From Stdlib Require Import DecimalString DecimalZ.
From stdpp Require Import base decidable option list strings.

Local Open Scope string_scope.
Local Open Scope list_scope.
Local Open Scope Z_scope.

(** ** Python built-ins used by the module *)

(** [str(n)] for an integer [n]: decimal digits, a leading minus sign for a
    negative number. *)
Definition str (n : Z) : string := NilZero.string_of_int (Z.to_int n).

(** [sep.join(parts)]. *)
Definition join (sep : string) (parts : list string) : string :=
  String.concat sep parts.

(** Sum of a list of integers. *)
Definition Zsum (l : list Z) : Z := foldr Z.add 0 l.

(** ** Insertion-ordered dictionaries *)

Module Dict.
Section Ops.
Context {K V : Type} `{EqDecision K}.

(** [{}] *)
Definition empty : list (K * V) := [].

(** The value bound to [k], if any (the first binding; a dictionary built
    by [set] never has two). *)
Fixpoint lookup (k : K) (d : list (K * V)) : option V :=
  match d with
  | [] => None
  | (k', v) :: d' => if decide (k = k') then Some v else lookup k d'
  end.

(** [d.get(k, dflt)] *)
Definition get (k : K) (dflt : V) (d : list (K * V)) : V :=
  match lookup k d with Some v => v | None => dflt end.

(** [k in d] *)
Definition mem (k : K) (d : list (K * V)) : bool :=
  match lookup k d with Some _ => true | None => false end.

(** [d[k] = v]: an existing key keeps its position, a new key goes last. *)
Fixpoint set (k : K) (v : V) (d : list (K * V)) : list (K * V) :=
  match d with
  | [] => [(k, v)]
  | (k', v') :: d' =>
      if decide (k = k') then (k, v) :: d' else (k', v') :: set k v d'
  end.

(** [d.keys()] *)
Definition keys (d : list (K * V)) : list K := map fst d.

(** [d.values()] *)
Definition values (d : list (K * V)) : list V := map snd d.
End Ops.
End Dict.

(** ** Blocks and the table of block names *)

(** An [anvil.block] as the module reads it: [block.id], [block.x],
    [block.y], [block.z]. *)
Module Block.
Record t : Type := mk { id : Z; x : Z; y : Z; z : Z }.
End Block.

(** [BLOCK_ID_NAMES]: the dictionary literal, entry by entry; the air
    block 0 is bound to [None]. *)
Definition BLOCK_ID_NAMES : list (Z * option string) :=
  [ (3658, Some "server");
    (54, Some "chest");
    (146, Some "chest");
    (3886, Some "rf");
    (3664, Some "electric_meter");
    (158, Some "dropper");
    (3574, Some "switch");
    (3575, Some "repair_machine");
    (3576, Some "ecotron");
    (3663, Some "electric_collector");
    (3379, Some "sealable");
    (2845, Some "heavy_wire");
    (49, Some "obsidian");
    (3657, Some "petroleum");
    (3383, Some "solar_panel");
    (212, Some "dark_ore");
    (52, Some "spawner");
    (3572, Some "incubator");
    (7, Some "bedrock");
    (1, Some "stone");
    (0, None) ].

(** ** [find_blocks_by_id] *)

(** The dictionary [{"x": block.x, "y": block.y, "z": block.z}]. *)
Definition coordinate_record (block : Block.t) : list (string * Z) :=
  [ ("x", Block.x block); ("y", Block.y block); ("z", Block.z block) ].

(** One turn of the loop of [find_blocks_by_id]: [coordinates.append(...)]
    when the ids agree. *)
Definition find_step (block_id : Z) (coordinates : list (list (string * Z)))
    (block : Block.t) : list (list (string * Z)) :=
  if decide (block_id = Block.id block)
  then coordinates ++ [coordinate_record block]
  else coordinates.

Definition find_blocks_by_id (block_id : Z) (blocks : list Block.t)
    : list (list (string * Z)) :=
  fold_left (find_step block_id) blocks [].

(** ** [count_blocks_in_chunk] *)

(** The name under which a block id is counted:
    [block_name = BLOCK_ID_NAMES.get(block.id)], replaced by [str(block.id)]
    when it is [None] and the id is not 0. *)
Definition block_name_of (block_id : Z) : option string :=
  let block_name := Dict.get block_id None BLOCK_ID_NAMES in
  if decide (block_name = None /\ block_id <> 0)
  then Some (str block_id)
  else block_name.

(** [block_counts[block_name] += 1] if the name is a key, else
    [block_counts[block_name] = 1]. *)
Definition increment (block_name : option string)
    (block_counts : list (option string * Z)) : list (option string * Z) :=
  if Dict.mem block_name block_counts
  then Dict.set block_name (Dict.get block_name 0 block_counts + 1) block_counts
  else Dict.set block_name 1 block_counts.

(** One turn of the loop of [count_blocks_in_chunk]; an air block
    [continue]s. *)
Definition count_step (block_counts : list (option string * Z))
    (block : Block.t) : list (option string * Z) :=
  if decide (Block.id block = 0) then block_counts
  else increment (block_name_of (Block.id block)) block_counts.

Definition count_blocks_in_chunk (chunk_blocks : list Block.t)
    : list (option string * Z) :=
  fold_left count_step chunk_blocks Dict.empty.

(** ** Effects: exceptions, the outside world, standard output *)

(** The outcome of a computation that may raise. *)
Inductive result (E A : Type) : Type :=
  | Ok (a : A)
  | Raise (e : E).
Arguments Ok {E A} a.
Arguments Raise {E A} e.

(** What a run acts on: the world the [chunks] module reads (and may
    change), and the lines printed so far. *)
Record state (W : Type) : Type := State { world : W; stdout : list string }.
Arguments State {W} world stdout.
Arguments world {W} s.
Arguments stdout {W} s.

(** A computation returns a value or raises, and leaves a state either way:
    what was printed before an exception stays printed. *)
Definition M (W E A : Type) : Type := state W -> result E A * state W.

Definition ret {W E A} (a : A) : M W E A := fun s => (Ok a, s).

Definition bind {W E A B} (c : M W E A) (k : A -> M W E B) : M W E B :=
  fun s =>
    match c s with
    | (Ok a, s') => k a s'
    | (Raise e, s') => (Raise e, s')
    end.

Declare Scope py_scope.
Delimit Scope py_scope with py.
Notation "x <- c1 ;; c2" := (bind c1 (fun x => c2))
  (at level 100, c1 at next level, right associativity) : py_scope.
Notation "c1 ;; c2" := (bind c1 (fun _ => c2))
  (at level 100, right associativity) : py_scope.
Local Open Scope py_scope.

(** [print(line)] *)
Definition print {W E} (line : string) : M W E unit :=
  fun s => (Ok tt, State (world s) (stdout s ++ [line])).

(** A call into the [chunks] module: it sees and changes the world only. *)
Definition call {W E A} (f : W -> result E A * W) : M W E A :=
  fun s => let (r, w) := f (world s) in (r, State w (stdout s)).

(** [for a in l: acc = body(a, acc)]: a loop whose body updates the
    variables [acc]; an exception leaves the loop at once. *)
Fixpoint for_each {W E A S} (body : A -> S -> M W E S) (l : list A) (acc : S)
    : M W E S :=
  match l with
  | [] => ret acc
  | a :: l' => acc' <- body a acc ;; for_each body l' acc'
  end.

(** ** The [chunks] module and [anvil.Chunk] *)

(** What the analysis needs from its provider: the files of a world, the
    chunks of a file, the blocks of a chunk, and the grid coordinates
    [chunk.x], [chunk.z] of a chunk. *)
Class Chunks (World Exn File Chunk : Type) : Type := {
  chunk_x : Chunk -> Z;
  chunk_z : Chunk -> Z;
  get_mca_files : string -> string -> World -> result Exn (list File) * World;
  get_list_of_chunks_by_mca : File -> World -> result Exn (list Chunk) * World;
  get_chunk_matrice : Chunk -> World -> result Exn (list Block.t) * World
}.

(** [repr] of a count dictionary as [print] shows it: [{'chest': 2, 'rf': 1}].
    Every key of a count dictionary is a table name or a decimal number, for
    which [repr] is the name between single quotes. *)
Definition repr_key (k : option string) : string :=
  match k with
  | Some name => "'" +:+ name +:+ "'"
  | None => "None"
  end.

Definition repr_item (item : option string * Z) : string :=
  repr_key (fst item) +:+ ": " +:+ str (snd item).

Definition repr_counts (d : list (option string * Z)) : string :=
  "{" +:+ join ", " (map repr_item d) +:+ "}".

(** The [totals] dictionary; its three keys are fixed. *)
Record Totals : Type := mkTotals { chest : Z; obsidian : Z; rf : Z }.

Section Analysis.
Context {World Exn File Chunk : Type} `{!Chunks World Exn File Chunk}.

Abbreviation counts := (list (option string * Z)) (only parsing).
Abbreviation locations := (list (string * list (option string * Z)))
  (only parsing).

(** *** [find_blocks_in_chunks] *)

(** The loop body: [results.append({(chunk.x, chunk.z): len(coordinates)})]. *)
Definition find_in_chunk (block_id : Z) (chunk : Chunk)
    (results : list (list (Z * Z * Z))) : M World Exn (list (list (Z * Z * Z))) :=
  blocks <- call (get_chunk_matrice chunk) ;;
  let coordinates := find_blocks_by_id block_id blocks in
  ret (results ++ [[((chunk_x chunk, chunk_z chunk),
                     Z.of_nat (length coordinates))]]).

Definition find_blocks_in_chunks (block_id : Z) (chunk_list : list Chunk)
    : M World Exn (list (list (Z * Z * Z))) :=
  for_each (find_in_chunk block_id) chunk_list [].

(** *** [analyze_world_chunks] *)

(** [f"x:{chunk.x*16}, z:{chunk.z*16}"] *)
Definition chunk_key (chunk : Chunk) : string :=
  "x:" +:+ str (chunk_x chunk * 16) +:+ ", z:" +:+ str (chunk_z chunk * 16).

(** [if block_counts: blocks_by_location[chunk_key] = block_counts] *)
Definition store_chunk_counts (chunk : Chunk) (block_counts : counts)
    (blocks_by_location : locations) : locations :=
  match block_counts with
  | [] => blocks_by_location
  | _ :: _ => Dict.set (chunk_key chunk) block_counts blocks_by_location
  end.

(** The body of the loop over the chunks of a file. *)
Definition process_chunk (chunk : Chunk) (blocks_by_location : locations)
    : M World Exn locations :=
  block_list <- call (get_chunk_matrice chunk) ;;
  let block_counts := count_blocks_in_chunk block_list in
  ret (store_chunk_counts chunk block_counts blocks_by_location).

(** The body of the loop over the files. *)
Definition process_file (file : File) (blocks_by_location : locations)
    : M World Exn locations :=
  chunk_list <- call (get_list_of_chunks_by_mca file) ;;
  for_each process_chunk chunk_list blocks_by_location.

(** The first half of [analyze_world_chunks]: the files of world "cyan"
    are listed and every chunk of every file is counted into
    [blocks_by_location]. *)
Definition scan_world : M World Exn locations :=
  files <- call (get_mca_files "cyan" EmptyString) ;;
  for_each process_file files Dict.empty.

(** [totals["rf"] += block_data.get("rf", 0)], then obsidian, then chest. *)
Definition update_totals (block_data : counts) (totals : Totals) : Totals :=
  let totals := mkTotals (chest totals) (obsidian totals)
                  (rf totals + Dict.get (Some "rf") 0 block_data) in
  let totals := mkTotals (chest totals)
                  (obsidian totals + Dict.get (Some "obsidian") 0 block_data)
                  (rf totals) in
  mkTotals (chest totals + Dict.get (Some "chest") 0 block_data)
    (obsidian totals) (rf totals).

(** [f"{location}: {block_data}"] *)
Definition location_line (item : string * counts) : string :=
  fst item +:+ ": " +:+ repr_counts (snd item).

(** The body of the loop over [blocks_by_location.items()]. *)
Definition print_location (item : string * counts) (totals : Totals)
    : M World Exn Totals :=
  print (location_line item) ;;
  ret (update_totals (snd item) totals).

(** The second loop, from [totals = {"chest": 0, "obsidian": 0, "rf": 0}]. *)
Definition print_results (blocks_by_location : locations)
    : M World Exn Totals :=
  for_each print_location blocks_by_location (mkTotals 0 0 0).

(** The three closing [print]s. *)
Definition summary_lines (totals : Totals) : list string :=
  [ "Total chests: " +:+ str (chest totals);
    "Total obsidian: " +:+ str (obsidian totals);
    "Total RF blocks: " +:+ str (rf totals) ].

Definition print_summary (totals : Totals) : M World Exn unit :=
  print ("Total chests: " +:+ str (chest totals)) ;;
  print ("Total obsidian: " +:+ str (obsidian totals)) ;;
  print ("Total RF blocks: " +:+ str (rf totals)).

Definition analyze_world_chunks : M World Exn unit :=
  blocks_by_location <- scan_world ;;
  totals <- print_results blocks_by_location ;;
  print_summary totals.
End Analysis.

(** ** A provider over in-memory worlds

    Files and chunks carry what the provider answers for them, a chunk list
    or a block list or the exception raised instead; the world is the number
    of provider calls made so far. *)
Record MemChunk : Type :=
  mkChunk { mem_x : Z; mem_z : Z; mem_blocks : result string (list Block.t) }.

Definition MemFile : Type := result string (list MemChunk).

Definition mem_chunks (files : result string (list MemFile))
    : Chunks nat string MemFile MemChunk :=
  {| chunk_x := mem_x;
     chunk_z := mem_z;
     get_mca_files := fun _ _ w => (files, S w);
     get_list_of_chunks_by_mca := fun file w => (file, S w);
     get_chunk_matrice := fun chunk w => (mem_blocks chunk, S w) |}.

(** ** Notions used to state the properties *)

(** No comma in a string. *)
Fixpoint comma_free (s : string) : bool :=
  match s with
  | EmptyString => true
  | String c s' => negb (Ascii.eqb c ",") && comma_free s'
  end.

(** The name the table binds to an id, or the decimal form of an id the
    table does not bind. *)
Definition table_name (a : Z) : option string :=
  match Dict.lookup a BLOCK_ID_NAMES with
  | Some v => v
  | None => Some (str a)
  end.

(** How many blocks of a list have one of the given ids. *)
Definition count_ids (ids : list Z) (blocks : list Block.t) : Z :=
  Z.of_nat (length (filter (fun b => Block.id b ∈ ids) blocks)).

(** How many non-air blocks of a list are counted under a given name. *)
Definition occurrences (name : option string) (blocks : list Block.t) : Z :=
  Z.of_nat (length (filter
    (fun b => Block.id b <> 0 /\ block_name_of (Block.id b) = name) blocks)).

(** The number of distinct ids, and of distinct names, in a block list. *)
Definition distinct_ids (blocks : list Block.t) : nat :=
  length (remove_dups (map Block.id blocks)).

Definition distinct_names (blocks : list Block.t) : nat :=
  length (remove_dups (map (fun b => block_name_of (Block.id b)) blocks)).

(** The elements of a list, each kept at its first occurrence. *)
Fixpoint first_occurrences {A : Type} `{EqDecision A} (l : list A) : list A :=
  match l with
  | [] => []
  | x :: rest => x :: filter (fun y => y <> x) (first_occurrences rest)
  end.

(** 1 when both chest ids, 54 and 146, occur in the list, else 0. *)
Definition both_chest_ids (blocks : list Block.t) : nat :=
  if decide (54 ∈ map Block.id blocks /\ 146 ∈ map Block.id blocks)
  then 1%nat else 0%nat.

Section Observations.
Context {World Exn File Chunk : Type} `{!Chunks World Exn File Chunk}.

(** The provider calls of a run, in the order [analyze_world_chunks] makes
    them, and nothing else: each chunk met is returned with its decoded
    block list. *)
Definition decode_chunk (chunk : Chunk) (seen : list (Chunk * list Block.t))
    : M World Exn (list (Chunk * list Block.t)) :=
  block_list <- call (get_chunk_matrice chunk) ;;
  ret (seen ++ [(chunk, block_list)]).

Definition decode_file (file : File) (seen : list (Chunk * list Block.t))
    : M World Exn (list (Chunk * list Block.t)) :=
  chunk_list <- call (get_list_of_chunks_by_mca file) ;;
  for_each decode_chunk chunk_list seen.

Definition decode_world : M World Exn (list (Chunk * list Block.t)) :=
  files <- call (get_mca_files "cyan" EmptyString) ;;
  for_each decode_file files [].

(** The block lists of a chunk list, decoded in order. *)
Fixpoint decode_chunks (chunk_list : list Chunk)
    : M World Exn (list (list Block.t)) :=
  match chunk_list with
  | [] => ret []
  | chunk :: rest =>
      blocks <- call (get_chunk_matrice chunk) ;;
      others <- decode_chunks rest ;;
      ret (blocks :: others)
  end.

(** The entry [find_blocks_in_chunks] owes a chunk with the given blocks. *)
Definition chunk_entry (block_id : Z) (chunk : Chunk) (blocks : list Block.t)
    : list (Z * Z * Z) :=
  [((chunk_x chunk, chunk_z chunk), count_ids [block_id] blocks)].

(** The grid coordinates of a chunk. *)
Definition chunk_coords (chunk : Chunk) : Z * Z := (chunk_x chunk, chunk_z chunk).

(** [analyze_world_chunks] up to the end of its second loop, returning the
    totals that the three closing lines print. *)
Definition run_totals : M World Exn Totals :=
  blocks_by_location <- scan_world ;;
  print_results blocks_by_location.

(** The location report after the given chunks were processed in order. *)
Definition locations_of (seen : list (Chunk * list Block.t))
    : list (string * list (option string * Z)) :=
  fold_left
    (fun report o => store_chunk_counts (fst o) (count_blocks_in_chunk (snd o)) report)
    seen Dict.empty.

(** The report entry a chunk asks for. *)
Definition entry_of (o : Chunk * list Block.t)
    : string * list (option string * Z) :=
  (chunk_key (fst o), count_blocks_in_chunk (snd o)).

(** The chunks that ask for an entry: those with a non-empty count. *)
Definition stored (seen : list (Chunk * list Block.t))
    : list (Chunk * list Block.t) :=
  filter (fun o => count_blocks_in_chunk (snd o) <> []) seen.

(** Of chunks that ask for an entry, those whose entry is not replaced by
    a later one with the same label. *)
Fixpoint last_writes (l : list (Chunk * list Block.t))
    : list (Chunk * list Block.t) :=
  match l with
  | [] => []
  | o :: rest =>
      if decide (chunk_key (fst o) ∈ map (fun o' => chunk_key (fst o')) rest)
      then last_writes rest
      else o :: last_writes rest
  end.

Definition retained (seen : list (Chunk * list Block.t))
    : list (Chunk * list Block.t) :=
  last_writes (stored seen).

(** All the blocks of the given chunks. *)
Definition all_blocks (seen : list (Chunk * list Block.t)) : list Block.t :=
  concat (map snd seen).

(** The totals are the numbers of chest (54, 146), obsidian (49) and RF
    (3886) blocks of the given chunks. *)
Definition totals_exact (seen : list (Chunk * list Block.t))
    (totals : Totals) : Prop :=
  chest totals = count_ids [54; 146] (all_blocks seen) /\
  obsidian totals = count_ids [49] (all_blocks seen) /\
  rf totals = count_ids [3886] (all_blocks seen).

(** The lines a report prints, and the totals it sums. *)
Definition report_totals (report : list (string * list (option string * Z)))
    : Totals :=
  mkTotals (Zsum (map (fun item => Dict.get (Some "chest") 0 (snd item)) report))
           (Zsum (map (fun item => Dict.get (Some "obsidian") 0 (snd item)) report))
           (Zsum (map (fun item => Dict.get (Some "rf") 0 (snd item)) report)).

Definition report_lines (report : list (string * list (option string * Z)))
    : list string :=
  map location_line report ++ summary_lines (report_totals report).
End Observations.


(** ** Sample data *)

(** A chest and a trapped chest. *)
Definition chest_pair : list Block.t :=
  [Block.mk 54 1 2 3; Block.mk 146 4 5 6].

(** An air block, two chests and an obsidian block. *)
Definition scenario_blocks : list Block.t :=
  [Block.mk 0 7 8 9; Block.mk 54 1 2 3; Block.mk 54 4 5 6; Block.mk 49 0 0 0].

(** A block whose id the table does not bind. *)
Definition unknown_block : Block.t := Block.mk 9999 1 1 1.

(** Four RF blocks and air at chunk (5, -3). *)
Definition rf_chunk : MemChunk :=
  mkChunk 5 (-3)
    (Ok [Block.mk 3886 0 1 0; Block.mk 0 0 2 0; Block.mk 3886 0 3 0;
         Block.mk 3886 1 1 0; Block.mk 3886 1 2 0]).

(** A chunk of air only. *)
Definition air_chunk : MemChunk := mkChunk 2 2 (Ok [Block.mk 0 0 0 0]).

(** A chunk whose blocks cannot be decoded. *)
Definition corrupt_chunk : MemChunk := mkChunk 7 7 (Raise "corrupt chunk").

(** A world of two files. *)
Definition sample_world : result string (list MemFile) :=
  Ok [ Ok [rf_chunk; air_chunk];
       Ok [mkChunk 1 0 (Ok scenario_blocks)] ].

(** A world whose two chunks bear the same coordinates. *)
Definition overwritten_world : result string (list MemFile) :=
  Ok [ Ok [mkChunk 0 0 (Ok [Block.mk 54 1 2 3]);
           mkChunk 0 0 (Ok [Block.mk 49 4 5 6])] ].

(** Its chunks with their blocks. *)
Definition overwritten_seen : list (MemChunk * list Block.t) :=
  [ (mkChunk 0 0 (Ok [Block.mk 54 1 2 3]), [Block.mk 54 1 2 3]);
    (mkChunk 0 0 (Ok [Block.mk 49 4 5 6]), [Block.mk 49 4 5 6]) ].

(** A world with a corrupt chunk after a good one. *)
Definition corrupt_world : result string (list MemFile) :=
  Ok [ Ok [rf_chunk; corrupt_chunk; air_chunk] ].

(** A world without a block to report: a chunk of air, and an empty file. *)
Definition air_world : result string (list MemFile) :=
  Ok [ Ok [air_chunk]; Ok [] ].

(** The state a run starts from: no provider call made, nothing printed. *)
Definition start : state nat := State 0%nat [].

(** * Properties *)

(** ** Decimal strings *)

Lemma str_parse (n : Z) : NilZero.int_of_string (str n) = Some (Z.to_int n).
Proof.
  unfold str. apply NilZero.isi; destruct n; simpl; try discriminate;
    intros [= Hnil]; exact (DecimalPos.Unsigned.to_uint_nonnil _ Hnil).
Qed.

Lemma str_inj (a b : Z) : str a = str b -> a = b.
Proof.
  intros Heq. apply DecimalZ.to_int_inj.
  pose proof (str_parse a) as Ha. rewrite Heq, str_parse in Ha. congruence.
Qed.

(** A string that does not read as a number is the [str] of no integer. *)
Lemma str_not_word (n : Z) (s : string) :
  NilZero.int_of_string s = None -> str n <> s.
Proof. intros Hs Heq. pose proof (str_parse n) as Hn. congruence. Qed.

Lemma uint_comma_free (d : Decimal.uint) :
  comma_free (NilEmpty.string_of_uint d) = true.
Proof. induction d; simpl; auto. Qed.

Lemma str_comma_free (n : Z) : comma_free (str n) = true.
Proof.
  assert (forall d, comma_free (NilZero.string_of_uint d) = true) as Hd.
  { intros d. destruct d; try reflexivity; apply (uint_comma_free (_ d)). }
  destruct n; unfold str; simpl; auto.
Qed.

(** Two strings cut at their first comma agree part by part. *)
Lemma append_comma_inj (s1 s2 r1 r2 : string) :
  comma_free s1 = true -> comma_free s2 = true ->
  s1 +:+ String "," r1 = s2 +:+ String "," r2 -> s1 = s2 /\ r1 = r2.
Proof.
  revert s2. induction s1 as [|c s1 IH]; intros [|c' s2]; simpl.
  - intros _ _ [= ->]. done.
  - intros _ Hc [= <- _]. simpl in Hc. done.
  - intros Hc _ [= -> _]. simpl in Hc. done.
  - intros [_ H1]%andb_prop [_ H2]%andb_prop [= -> Heq].
    destruct (IH _ H1 H2 Heq) as [-> ->]. done.
Qed.

(** ** Lists *)

Lemma filter_all {A} (P : A -> Prop) `{!forall x, Decision (P x)} (l : list A) :
  (forall x, x ∈ l -> P x) -> filter P l = l.
Proof.
  induction l as [|a l IH]; intros Hall; [done|].
  rewrite filter_cons_True by (apply Hall; left).
  f_equal. apply IH. intros x Hx. apply Hall. by right.
Qed.

(** ** Dictionaries *)

Section DictFacts.
Context {K V : Type} `{EqDecision K}.
Implicit Types (k : K) (v : V) (d : list (K * V)).

Lemma lookup_set_eq k v d : Dict.lookup k (Dict.set k v d) = Some v.
Proof.
  induction d as [|[k' v'] d IH]; simpl.
  - by rewrite decide_True.
  - destruct (decide (k = k')) as [->|Hne]; simpl.
    + by rewrite decide_True.
    + by rewrite decide_False.
Qed.

Lemma lookup_set_ne k k' v d :
  k <> k' -> Dict.lookup k' (Dict.set k v d) = Dict.lookup k' d.
Proof.
  intros Hne. induction d as [|[k0 v0] d IH]; simpl.
  - rewrite decide_False; [done|congruence].
  - destruct (decide (k = k0)) as [->|Hne0]; simpl.
    + rewrite !decide_False; [done|congruence..].
    + by rewrite IH.
Qed.

Lemma lookup_None_keys k d : Dict.lookup k d = None <-> k ∉ Dict.keys d.
Proof.
  unfold Dict.keys. induction d as [|[k' v'] d IH]; simpl.
  - split; [intros _; apply not_elem_of_nil|done].
  - rewrite not_elem_of_cons. destruct (decide (k = k')); [|tauto].
    split; [done|tauto].
Qed.

Lemma lookup_Some_elem k v d : Dict.lookup k d = Some v -> (k, v) ∈ d.
Proof.
  induction d as [|[k' v'] d IH]; simpl; [done|].
  destruct (decide (k = k')) as [->|]; [intros [= ->]; left|right; auto].
Qed.

Lemma elem_lookup_NoDup k v d :
  NoDup (Dict.keys d) -> (k, v) ∈ d -> Dict.lookup k d = Some v.
Proof.
  unfold Dict.keys.
  induction d as [|[k' v'] d IH]; simpl; [by intros _ ?%elem_of_nil|].
  intros [Hk' Hnd]%NoDup_cons [[= -> ->]|Hin]%elem_of_cons.
  - by rewrite decide_True.
  - rewrite decide_False; [auto|]. intros ->. apply Hk'.
    apply list_elem_of_fmap. by exists (k', v).
Qed.

Lemma keys_set k v d :
  Dict.keys (Dict.set k v d)
  = if Dict.mem k d then Dict.keys d else Dict.keys d ++ [k].
Proof.
  unfold Dict.mem, Dict.keys. induction d as [|[k' v'] d IH]; simpl; [done|].
  destruct (decide (k = k')) as [->|]; simpl; [done|].
  rewrite IH. by destruct (Dict.lookup k d).
Qed.

Lemma keys_set_NoDup k v d :
  NoDup (Dict.keys d) -> NoDup (Dict.keys (Dict.set k v d)).
Proof.
  intros Hnd. rewrite keys_set. unfold Dict.mem.
  destruct (Dict.lookup k d) eqn:Hk; [done|].
  apply NoDup_app. split_and!; [done| |apply NoDup_singleton].
  intros k' Hin ->%list_elem_of_singleton. by apply lookup_None_keys in Hk.
Qed.

(** Writing a key replaces its entry, if any, and adds one. *)
Lemma set_Permutation k v d :
  NoDup (Dict.keys d) ->
  Dict.set k v d ≡ₚ (k, v) :: filter (fun e => fst e <> k) d.
Proof.
  unfold Dict.keys.
  induction d as [|[k' v'] d IH]; simpl; [done|].
  intros [Hk' Hnd]%NoDup_cons. destruct (decide (k = k')) as [->|Hne].
  - rewrite filter_cons_False by (simpl; tauto).
    rewrite filter_all; [done|].
    intros [k0 v0] Hin. simpl. intros ->. apply Hk'.
    apply list_elem_of_fmap. by exists (k', v0).
  - rewrite filter_cons_True by (simpl; congruence).
    rewrite IH by done. apply Permutation_swap.
Qed.
End DictFacts.

(** The sum of the values of an integer dictionary after a write. *)
Lemma Zsum_values_set {K} `{EqDecision K} (k : K) (v : Z) (d : list (K * Z)) :
  Zsum (Dict.values (Dict.set k v d)) = Zsum (Dict.values d) - Dict.get k 0 d + v.
Proof.
  unfold Dict.values, Dict.get, Zsum.
  induction d as [|[k' v'] d IH]; simpl; [lia|].
  destruct (decide (k = k')); simpl; lia.
Qed.

Lemma Zsum_app (l1 l2 : list Z) : Zsum (l1 ++ l2) = Zsum l1 + Zsum l2.
Proof. unfold Zsum. induction l1; simpl; lia. Qed.

Lemma Zsum_Permutation (l1 l2 : list Z) : l1 ≡ₚ l2 -> Zsum l1 = Zsum l2.
Proof. unfold Zsum. induction 1; simpl; lia. Qed.

(** ** The table and the names it gives *)

Lemma table_lookup_air : Dict.lookup 0 BLOCK_ID_NAMES = Some None.
Proof. reflexivity. Qed.

Lemma table_keys_NoDup : NoDup (Dict.keys BLOCK_ID_NAMES).
Proof. apply (bool_decide_unpack _). by vm_compute. Qed.

(** Only the air block is bound to [None]. *)
Lemma table_None_air (a : Z) : (a, None) ∈ BLOCK_ID_NAMES -> a = 0.
Proof.
  unfold BLOCK_ID_NAMES. rewrite !elem_of_cons, elem_of_nil.
  intros H; repeat (destruct H as [H|H]; [by simplify_eq|]). done.
Qed.

(** No name of the table reads as a number. *)
Lemma table_names_words (a : Z) (name : string) :
  (a, Some name) ∈ BLOCK_ID_NAMES -> NilZero.int_of_string name = None.
Proof.
  unfold BLOCK_ID_NAMES. rewrite !elem_of_cons, elem_of_nil.
  intros H; repeat (destruct H as [H|H]; [by simplify_eq|]). done.
Qed.

Lemma block_name_of_present (a : Z) (v : option string) :
  Dict.lookup a BLOCK_ID_NAMES = Some v -> block_name_of a = v.
Proof.
  intros Hv. unfold block_name_of, Dict.get. rewrite Hv. simpl.
  destruct v as [name|]; [by rewrite decide_False by (intros [? _]; done)|].
  apply lookup_Some_elem, table_None_air in Hv as ->.
  by rewrite decide_False by (intros [_ ?]; done).
Qed.

Lemma block_name_of_absent (a : Z) :
  Dict.lookup a BLOCK_ID_NAMES = None -> block_name_of a = Some (str a).
Proof.
  intros Hv. unfold block_name_of, Dict.get. rewrite Hv. simpl.
  rewrite decide_True; [done|]. split; [done|].
  intros ->. by rewrite table_lookup_air in Hv.
Qed.

(** A block that is not air is counted under a name, never under [None]. *)
Lemma block_name_of_Some (a : Z) : a <> 0 -> exists name, block_name_of a = Some name.
Proof.
  intros Ha. destruct (Dict.lookup a BLOCK_ID_NAMES) as [[name|]|] eqn:Hv.
  - exists name. by apply block_name_of_present.
  - by apply lookup_Some_elem, table_None_air in Hv.
  - exists (str a). by apply block_name_of_absent.
Qed.

(** The fallback name of an id outside the table is no name of the table. *)
Lemma fallback_not_table_name (u a : Z) (name : string) :
  (a, Some name) ∈ BLOCK_ID_NAMES -> str u <> name.
Proof. intros Hin. by apply str_not_word, (table_names_words a). Qed.

(** Inside the table, only the two chest ids share a name. *)
Lemma table_names_collide :
  Forall (fun a => Forall (fun b =>
      block_name_of a = block_name_of b ->
      a = b \/ (a = 54 /\ b = 146) \/ (a = 146 /\ b = 54))
    (Dict.keys BLOCK_ID_NAMES)) (Dict.keys BLOCK_ID_NAMES).
Proof. apply (bool_decide_unpack _). by vm_compute. Qed.

(** Two ids are counted under the same name only when they are equal or are
    the two chest ids. *)
Lemma block_name_of_collide (a b : Z) :
  block_name_of a = block_name_of b ->
  a = b \/ (a = 54 /\ b = 146) \/ (a = 146 /\ b = 54).
Proof.
  intros Heq.
  destruct (Dict.lookup a BLOCK_ID_NAMES) as [va|] eqn:Ha;
    destruct (Dict.lookup b BLOCK_ID_NAMES) as [vb|] eqn:Hb.
  - pose proof table_names_collide as Hall.
    rewrite Forall_forall in Hall.
    assert (a ∈ Dict.keys BLOCK_ID_NAMES) as Hina.
    { destruct (decide (a ∈ Dict.keys BLOCK_ID_NAMES)); [done|].
      apply lookup_None_keys in n. congruence. }
    assert (b ∈ Dict.keys BLOCK_ID_NAMES) as Hinb.
    { destruct (decide (b ∈ Dict.keys BLOCK_ID_NAMES)); [done|].
      apply lookup_None_keys in n. congruence. }
    specialize (Hall a Hina). rewrite Forall_forall in Hall. by apply Hall.
  - exfalso. rewrite (block_name_of_present a va Ha),
      (block_name_of_absent b Hb) in Heq. subst va.
    apply lookup_Some_elem in Ha. by apply (fallback_not_table_name b) in Ha.
  - exfalso. rewrite (block_name_of_present b vb Hb),
      (block_name_of_absent a Ha) in Heq. subst vb.
    apply lookup_Some_elem in Hb. by apply (fallback_not_table_name a) in Hb.
  - left. rewrite (block_name_of_absent a Ha), (block_name_of_absent b Hb) in Heq.
    apply str_inj. congruence.
Qed.

(** ** The block counter *)

Lemma count_snoc (blocks : list Block.t) (b : Block.t) :
  count_blocks_in_chunk (blocks ++ [b])
  = count_step (count_blocks_in_chunk blocks) b.
Proof. unfold count_blocks_in_chunk. by rewrite fold_left_app. Qed.

Lemma occurrences_nonneg (name : option string) (blocks : list Block.t) :
  0 <= occurrences name blocks.
Proof. unfold occurrences. lia. Qed.

Lemma occurrences_snoc (name : option string) (blocks : list Block.t) (b : Block.t) :
  occurrences name (blocks ++ [b])
  = occurrences name blocks
    + (if decide (Block.id b <> 0 /\ block_name_of (Block.id b) = name)
       then 1 else 0).
Proof.
  unfold occurrences. rewrite filter_app, length_app, filter_cons, filter_nil.
  destruct (decide _); simpl; lia.
Qed.

(** Air blocks leave the counter as it is. *)
Lemma count_step_air (d : list (option string * Z)) (blocks : list Block.t) :
  fold_left count_step blocks d
  = fold_left count_step (filter (fun b => Block.id b <> 0) blocks) d.
Proof.
  revert d. induction blocks as [|b blocks IH]; intros d; [done|].
  rewrite filter_cons. simpl. unfold count_step at 2.
  destruct (decide (Block.id b = 0)) as [Hb|Hb].
  - rewrite decide_False by tauto. apply IH.
  - rewrite decide_True by done. simpl. rewrite IH. f_equal.
    unfold count_step. by rewrite decide_False.
Qed.

(** The counter binds each name to the number of non-air blocks counted
    under it, and has no entry for a name without blocks. *)
Lemma count_lookup (name : option string) (blocks : list Block.t) :
  Dict.lookup name (count_blocks_in_chunk blocks)
  = if decide (occurrences name blocks = 0) then None
    else Some (occurrences name blocks).
Proof.
  induction blocks as [|b blocks IH] using rev_ind; [done|].
  rewrite count_snoc, occurrences_snoc.
  pose proof (occurrences_nonneg name blocks) as Hpos.
  unfold count_step, increment, Dict.mem, Dict.get.
  destruct (decide (Block.id b <> 0 /\ block_name_of (Block.id b) = name))
    as [[Hb <-]|Hn].
  - rewrite decide_False by done. rewrite IH.
    destruct (decide (occurrences _ blocks = 0)) as [Hz|Hz];
      rewrite lookup_set_eq.
    + rewrite Hz. by rewrite decide_False by lia.
    + by rewrite decide_False by lia.
  - rewrite Z.add_0_r, <- IH.
    destruct (decide (Block.id b = 0)) as [Hb|Hb]; [done|].
    destruct (Dict.lookup (block_name_of _) _); rewrite lookup_set_ne; tauto.
Qed.

Lemma count_keys_NoDup (blocks : list Block.t) :
  NoDup (Dict.keys (count_blocks_in_chunk blocks)).
Proof.
  induction blocks as [|b blocks IH] using rev_ind; [apply NoDup_nil_2|].
  rewrite count_snoc. unfold count_step, increment.
  destruct (decide _); [done|].
  destruct (Dict.mem _ _); by apply keys_set_NoDup.
Qed.

(** The counts add up to the number of non-air blocks. *)
Lemma count_sum (blocks : list Block.t) :
  Zsum (Dict.values (count_blocks_in_chunk blocks))
  = Z.of_nat (length (filter (fun b => Block.id b <> 0) blocks)).
Proof.
  induction blocks as [|b blocks IH] using rev_ind; [done|].
  rewrite count_snoc, filter_app, length_app, filter_cons, filter_nil.
  unfold count_step. destruct (decide (Block.id b = 0)) as [Hb|Hb].
  { rewrite decide_False by tauto. simpl. rewrite IH. lia. }
  rewrite decide_True by done. unfold increment, Dict.mem.
  destruct (Dict.lookup _ _) eqn:Hl; rewrite Zsum_values_set, IH; simpl.
  - lia.
  - unfold Dict.get. rewrite Hl. lia.
Qed.

(** A name is a key of the counter exactly when a non-air block bears it. *)
Lemma count_keys (name : option string) (blocks : list Block.t) :
  name ∈ Dict.keys (count_blocks_in_chunk blocks)
  <-> exists b, b ∈ blocks /\ Block.id b <> 0 /\ block_name_of (Block.id b) = name.
Proof.
  destruct (decide (name ∈ Dict.keys (count_blocks_in_chunk blocks))) as [Hin|Hin].
  - split; [intros _|done].
    assert (Dict.lookup name (count_blocks_in_chunk blocks) <> None) as Hl
      by (intros Hn; by apply lookup_None_keys in Hn).
    rewrite count_lookup in Hl. destruct (decide _) as [|Hocc]; [done|].
    unfold occurrences in Hocc.
    destruct (filter _ blocks) as [|b l] eqn:Hf; [done|].
    assert (b ∈ filter (fun b => Block.id b <> 0
              /\ block_name_of (Block.id b) = name) blocks) as Hb
      by (rewrite Hf; left).
    apply list_elem_of_filter in Hb. exists b. tauto.
  - split; [done|]. intros (b & Hb & Hid & Hname). exfalso.
    apply lookup_None_keys in Hin. rewrite count_lookup in Hin.
    destruct (decide _) as [Hocc|]; [|done]. unfold occurrences in Hocc.
    assert (b ∈ filter (fun b => Block.id b <> 0
              /\ block_name_of (Block.id b) = name) blocks) as Hbf
      by (apply list_elem_of_filter; tauto).
    destruct (filter _ blocks); [by apply elem_of_nil in Hbf|done].
Qed.

(** The counter is empty exactly when every block is air. *)
Lemma count_empty (blocks : list Block.t) :
  count_blocks_in_chunk blocks = []
  <-> filter (fun b => Block.id b <> 0) blocks = [].
Proof.
  pose proof (count_sum blocks) as Hsum. split; intros Hnil.
  - rewrite Hnil in Hsum. simpl in Hsum.
    destruct (filter _ blocks); [done|simpl in Hsum; lia].
  - unfold count_blocks_in_chunk. rewrite count_step_air, Hnil. done.
Qed.

(** An air block, two chests and an obsidian block: two chests, one
    obsidian. *)
Example count_blocks_scenario :
  count_blocks_in_chunk scenario_blocks
  = [(Some "chest", 2); (Some "obsidian", 1)].
Proof. reflexivity. Qed.

(** Every key of a count mapping is the name of a non-air id: a name of the
    table or a decimal number. *)
Lemma count_key_origin (name : option string) (blocks : list Block.t) :
  name ∈ Dict.keys (count_blocks_in_chunk blocks) ->
  exists a, a <> 0 /\ name = table_name a.
Proof.
  intros (b & _ & Hb & <-)%count_keys. exists (Block.id b).
  split; [done|]. unfold table_name.
  destruct (Dict.lookup (Block.id b) BLOCK_ID_NAMES) eqn:Hl.
  - by apply block_name_of_present.
  - by apply block_name_of_absent.
Qed.

Lemma occurrences_ids (name : option string) (ids : list Z) (blocks : list Block.t) :
  (forall a, a <> 0 /\ block_name_of a = name <-> a ∈ ids) ->
  occurrences name blocks = count_ids ids blocks.
Proof.
  intros Hiff. unfold occurrences, count_ids. do 2 f_equal.
  apply list_filter_iff. intros b. apply Hiff.
Qed.

Lemma occurrences_zero (name : option string) (blocks : list Block.t) :
  (forall a, a <> 0 -> block_name_of a <> name) -> occurrences name blocks = 0.
Proof.
  intros Hno. unfold occurrences.
  replace (filter _ blocks) with (@nil Block.t); [done|].
  symmetry. induction blocks as [|b blocks IH]; [done|].
  rewrite filter_cons_False; [done|]. intros [Hb Hname]. by apply (Hno _ Hb).
Qed.

(** The ids counted as chests, obsidian and RF blocks. *)
Lemma chest_ids (a : Z) :
  a <> 0 /\ block_name_of a = Some "chest" <-> a ∈ [54; 146].
Proof.
  rewrite !elem_of_cons, elem_of_nil. split.
  - intros [_ Ha]. change (Some "chest") with (block_name_of 54) in Ha.
    apply block_name_of_collide in Ha. lia.
  - intros [->|[->|[]]]; done.
Qed.

Lemma obsidian_ids (a : Z) :
  a <> 0 /\ block_name_of a = Some "obsidian" <-> a ∈ [49].
Proof.
  rewrite !elem_of_cons, elem_of_nil. split.
  - intros [_ Ha]. change (Some "obsidian") with (block_name_of 49) in Ha.
    apply block_name_of_collide in Ha. lia.
  - intros [->|[]]; done.
Qed.

Lemma rf_ids (a : Z) :
  a <> 0 /\ block_name_of a = Some "rf" <-> a ∈ [3886].
Proof.
  rewrite !elem_of_cons, elem_of_nil. split.
  - intros [_ Ha]. change (Some "rf") with (block_name_of 3886) in Ha.
    apply block_name_of_collide in Ha. lia.
  - intros [->|[]]; done.
Qed.

(** The ids counted under the fallback name of an id outside the table. *)
Lemma fallback_ids (u a : Z) :
  Dict.lookup u BLOCK_ID_NAMES = None ->
  a <> 0 /\ block_name_of a = Some (str u) <-> a ∈ [u].
Proof.
  intros Hu. rewrite !elem_of_cons, elem_of_nil.
  pose proof (block_name_of_absent u Hu) as Hname. split.
  - intros [_ Ha]. rewrite <- Hname in Ha.
    apply block_name_of_collide in Ha as [->|[[_ ->]|[_ ->]]]; [by left|done..].
  - intros [->|[]]. split; [|done]. intros ->. by rewrite table_lookup_air in Hu.
Qed.

(** Distinct names against distinct ids: one name less when both chest ids
    occur. *)
Lemma distinct_names_ids (l : list Z) :
  (length (remove_dups (map block_name_of l))
   + (if decide (54%Z ∈ l /\ 146%Z ∈ l) then 1 else 0))%nat
  = length (remove_dups l).
Proof.
  induction l as [|x l IH]; [done|].
  assert (forall P Q : Prop, forall (dP : Decision P) (dQ : Decision Q),
    (P <-> Q) ->
    (if dP then 1 else 0)%nat = (if dQ then 1 else 0)%nat) as Hind.
  { intros P Q [?|?] [?|?] ?; tauto. }
  simpl remove_dups. unfold decide_rel.
  destruct (list_elem_of_dec x l) as [Hx|Hx];
    destruct (list_elem_of_dec (block_name_of x) (map block_name_of l))
      as [Hn|Hn].
  - rewrite <- IH. f_equal. apply Hind. rewrite !elem_of_cons.
    split; [|tauto]. intros [[?|?] [?|?]]; subst; try lia; tauto.
  - exfalso. apply Hn, list_elem_of_fmap. eauto.
  - apply list_elem_of_fmap in Hn as (y & Hxy & Hy).
    assert (54 ∈ x :: l /\ 146 ∈ x :: l) as Hboth.
    { rewrite !elem_of_cons.
      apply block_name_of_collide in Hxy as [->|[[-> ->]|[-> ->]]]; tauto. }
    assert (~ (54 ∈ l /\ 146 ∈ l)) as Hnot.
    { apply block_name_of_collide in Hxy as [->|[[-> ->]|[-> ->]]]; tauto. }
    destruct (decide (54 ∈ x :: l /\ 146 ∈ x :: l)); [|done].
    destruct (decide (54 ∈ l /\ 146 ∈ l)); [done|]. simpl. lia.
  - simpl. rewrite <- IH. do 2 f_equal. apply Hind. rewrite !elem_of_cons.
    split; [|tauto]. intros [[?|H54] [?|H146]]; subst; try lia; try tauto.
    + exfalso. apply Hn, list_elem_of_fmap. by exists 146.
    + exfalso. apply Hn, list_elem_of_fmap. by exists 54.
Qed.

(** ** The scanner and the counter: what they return *)

Lemma find_fold (block_id : Z) (blocks : list Block.t)
    (acc : list (list (string * Z))) :
  fold_left (find_step block_id) blocks acc
  = acc ++ map coordinate_record (filter (fun b => Block.id b = block_id) blocks).
Proof.
  revert acc. induction blocks as [|b blocks IH]; intros acc; simpl.
  - by rewrite app_nil_r.
  - rewrite IH, filter_cons. unfold find_step.
    destruct (decide (block_id = Block.id b)) as [->|Hne].
    + rewrite decide_True by done. by rewrite <- app_assoc.
    + by rewrite decide_False by congruence.
Qed.

(** C3: [find_blocks_by_id] returns the coordinate records of the blocks
    whose id is the target, one per matching block and in the order of the
    input; each record binds "x", "y" and "z" to the coordinates of its
    block; the number of records is the number of matching blocks; an empty
    list, or a list without a match, gives the empty list. *)
Theorem find_blocks_by_id_matches (block_id : Z) (blocks : list Block.t) :
  find_blocks_by_id block_id blocks
    = map coordinate_record (filter (fun b => Block.id b = block_id) blocks)
  /\ length (find_blocks_by_id block_id blocks)
     = length (filter (fun b => Block.id b = block_id) blocks)
  /\ (forall b : Block.t,
        Dict.keys (coordinate_record b) = ["x"; "y"; "z"]
        /\ Dict.lookup "x" (coordinate_record b) = Some (Block.x b)
        /\ Dict.lookup "y" (coordinate_record b) = Some (Block.y b)
        /\ Dict.lookup "z" (coordinate_record b) = Some (Block.z b))
  /\ find_blocks_by_id block_id [] = []
  /\ find_blocks_by_id block_id
       (filter (fun b => Block.id b <> block_id) blocks) = [].
Proof.
  assert (forall l, find_blocks_by_id block_id l
    = map coordinate_record (filter (fun b => Block.id b = block_id) l)) as Heq.
  { intros l. unfold find_blocks_by_id. by rewrite find_fold. }
  split_and!; [apply Heq| |done|done|].
  - by rewrite Heq, length_map.
  - rewrite Heq, list_filter_filter.
    replace (filter _ blocks) with (@nil Block.t); [done|].
    symmetry. induction blocks as [|b l IH]; [done|].
    rewrite filter_cons_False; [done|]. tauto.
Qed.

Lemma increment_lookup (key : option string) (d : list (option string * Z)) :
  Dict.lookup key (increment key d) = Some (Dict.get key 0 d + 1).
Proof.
  unfold increment, Dict.mem, Dict.get.
  destruct (Dict.lookup key d); by rewrite lookup_set_eq.
Qed.

Lemma block_name_of_table (a : Z) : block_name_of a = table_name a.
Proof.
  unfold table_name. destruct (Dict.lookup a BLOCK_ID_NAMES) eqn:Ha.
  - by apply block_name_of_present.
  - by apply block_name_of_absent.
Qed.

(** C4: a block that the counter classifies (a block that is not air) is
    counted under the name the table binds to its id when the table binds
    it, and under the decimal form of its id when the table does not; that
    name is the key whose count goes up by one. *)
Theorem count_key_classification (d : list (option string * Z)) (b : Block.t) :
  Block.id b <> 0 ->
  block_name_of (Block.id b) = table_name (Block.id b)
  /\ count_step d b = increment (table_name (Block.id b)) d
  /\ Dict.lookup (table_name (Block.id b)) (count_step d b)
     = Some (Dict.get (table_name (Block.id b)) 0 d + 1)
  /\ table_name (Block.id b) <> None.
Proof.
  intros Hb. rewrite <- block_name_of_table. unfold count_step.
  rewrite decide_False by done. split_and!; [done|done|apply increment_lookup|].
  destruct (block_name_of_Some _ Hb) as [name ->]. done.
Qed.

Lemma count_key_classification_witness :
  Block.id unknown_block <> 0
  /\ table_name (Block.id unknown_block) = Some "9999"
  /\ table_name 54 = Some "chest"
  /\ count_step [] unknown_block = [(Some "9999", 1)].
Proof.
  split; [done|]. split; [reflexivity|]. split; [reflexivity|].
  destruct (count_key_classification [] unknown_block) as (_ & -> & _);
    [done|reflexivity].
Defined.

(** C8: air blocks contribute nothing to the result of
    [count_blocks_in_chunk]: an air block leaves the counts as they are, the
    result is that of the list without its air blocks, neither [None] (the
    table's value for air) nor "0" is a key, and every count is the number
    of non-air blocks counted under its key. *)
Theorem air_never_counted (blocks : list Block.t) :
  (forall (d : list (option string * Z)) (x y z : Z),
     count_step d (Block.mk 0 x y z) = d)
  /\ count_blocks_in_chunk blocks
     = count_blocks_in_chunk (filter (fun b => Block.id b <> 0) blocks)
  /\ Dict.lookup None (count_blocks_in_chunk blocks) = None
  /\ Dict.lookup (Some (str 0)) (count_blocks_in_chunk blocks) = None
  /\ (forall name : option string,
        Dict.lookup name (count_blocks_in_chunk blocks)
        = if decide (occurrences name blocks = 0) then None
          else Some (occurrences name blocks)).
Proof.
  split_and!; [done|apply count_step_air| | |intros; apply count_lookup].
  - rewrite count_lookup, occurrences_zero; [done|].
    intros a Ha. destruct (block_name_of_Some a Ha) as [name ->]. done.
  - rewrite count_lookup, occurrences_zero; [done|].
    intros a Ha Hname. rewrite block_name_of_table in Hname.
    unfold table_name in Hname.
    destruct (Dict.lookup a BLOCK_ID_NAMES) as [v|] eqn:Hv.
    + subst v. apply lookup_Some_elem in Hv.
      by apply (fallback_not_table_name 0) in Hv.
    + injection Hname as Hname. by apply str_inj in Hname.
Qed.

(** C10: the decimal form of an id that the table does not bind differs from
    every name stored in the table, no id of the table is counted under it,
    and in any result of [count_blocks_in_chunk] the count under it is the
    number of blocks with exactly that id. *)
Theorem fallback_key_separate (u : Z) :
  Dict.lookup u BLOCK_ID_NAMES = None ->
  Forall (fun e => snd e <> Some (str u)) BLOCK_ID_NAMES
  /\ Forall (fun a => block_name_of a <> Some (str u)) (Dict.keys BLOCK_ID_NAMES)
  /\ (forall blocks : list Block.t,
        Dict.lookup (Some (str u)) (count_blocks_in_chunk blocks)
        = if decide (count_ids [u] blocks = 0) then None
          else Some (count_ids [u] blocks)).
Proof.
  intros Hu. split_and!.
  - apply Forall_forall. intros [a [name|]] Hin; simpl; [|done].
    intros [= Heq]. by apply (fallback_not_table_name u) in Hin.
  - apply Forall_forall. intros a Ha Hname.
    assert (a <> 0 /\ block_name_of a = Some (str u)) as Hboth.
    { split; [|done]. intros ->. done. }
    apply (fallback_ids u a Hu), list_elem_of_singleton in Hboth as ->.
    by apply lookup_None_keys in Hu.
  - intros blocks. rewrite count_lookup.
    by rewrite (occurrences_ids _ [u]) by (intros a; by apply fallback_ids).
Qed.

Lemma fallback_key_separate_witness :
  Dict.lookup 9999 BLOCK_ID_NAMES = None
  /\ Dict.lookup (Some (str 9999))
       (count_blocks_in_chunk (unknown_block :: scenario_blocks)) = Some 1.
Proof.
  split; [reflexivity|].
  destruct (fallback_key_separate 9999) as (_ & _ & ->); reflexivity.
Defined.

(** C1, as stated, fails: a chest (54) and a trapped chest (146) are two
    distinct non-air ids, and are counted in one entry. *)
Lemma count_blocks_chest_pair_one_entry :
  ~ (Forall (fun b => Block.id b <> 0) chest_pair ->
     length (count_blocks_in_chunk chest_pair) = distinct_ids chest_pair
     /\ Zsum (Dict.values (count_blocks_in_chunk chest_pair))
        = Z.of_nat (length chest_pair)).
Proof.
  intros Hclaim. destruct Hclaim as [Hlen _].
  - repeat constructor; done.
  - vm_compute in Hlen. discriminate.
Qed.

(** C1, amended: for a block list without air blocks, N blocks of K distinct
    ids, [count_blocks_in_chunk] returns one entry per distinct name, that
    is K entries, or K - 1 when both chest ids 54 and 146 occur, and the
    values sum to N. *)
Theorem count_blocks_entries_and_sum (blocks : list Block.t) :
  Forall (fun b => Block.id b <> 0) blocks ->
  length (count_blocks_in_chunk blocks) = distinct_names blocks
  /\ (length (count_blocks_in_chunk blocks) + both_chest_ids blocks)%nat
     = distinct_ids blocks
  /\ Zsum (Dict.values (count_blocks_in_chunk blocks)) = Z.of_nat (length blocks).
Proof.
  intros Hair. rewrite Forall_forall in Hair.
  assert (length (count_blocks_in_chunk blocks) = distinct_names blocks) as Hlen.
  { unfold distinct_names.
    rewrite <- (length_map fst (count_blocks_in_chunk blocks)).
    apply Permutation_length, NoDup_Permutation.
    - apply count_keys_NoDup.
    - apply NoDup_remove_dups.
    - intros name.
      pose proof (count_keys name blocks) as Hk. unfold Dict.keys in Hk.
      rewrite Hk, elem_of_remove_dups, list_elem_of_fmap.
      split; [intros (b & ? & ? & ?)|intros (b & ? & ?)]; exists b; auto. }
  split_and!; [done| |].
  - rewrite Hlen. unfold distinct_names, both_chest_ids, distinct_ids.
    rewrite <- distinct_names_ids. by rewrite map_map.
  - rewrite count_sum. by rewrite filter_all.
Qed.

Lemma count_blocks_entries_and_sum_witness :
  Forall (fun b => Block.id b <> 0) (unknown_block :: chest_pair)
  /\ length (count_blocks_in_chunk (unknown_block :: chest_pair)) = 2%nat
  /\ both_chest_ids (unknown_block :: chest_pair) = 1%nat
  /\ distinct_ids (unknown_block :: chest_pair) = 3%nat.
Proof.
  assert (Forall (fun b => Block.id b <> 0) (unknown_block :: chest_pair)) as Hair
    by (repeat constructor; done).
  split; [exact Hair|].
  destruct (count_blocks_entries_and_sum _ Hair) as (Hnames & Hids & _).
  split; [rewrite Hnames; reflexivity|]. split; reflexivity.
Defined.

(** ** Runs *)

Section Runs.
Context {World Exn File Chunk : Type} `{!Chunks World Exn File Chunk}.
Implicit Types (s : state World) (e : Exn).

Lemma bind_Ok {A B} (c : M World Exn A) (k : A -> M World Exn B) s a s' :
  c s = (Ok a, s') -> bind c k s = k a s'.
Proof. unfold bind. by intros ->. Qed.

Lemma bind_Raise {A B} (c : M World Exn A) (k : A -> M World Exn B) s e s' :
  c s = (Raise e, s') -> bind c k s = (Raise e, s').
Proof. unfold bind. by intros ->. Qed.

(** A provider call leaves the printed lines alone. *)
Lemma call_stdout {A} (f : World -> result Exn A * World) s r s' :
  call f s = (r, s') -> stdout s' = stdout s.
Proof. unfold call. destruct (f (world s)). by intros [= _ <-]. Qed.

(** A loop stops at the first turn that raises. *)
Lemma for_each_raise {A S} (body : A -> S -> M World Exn S)
    (done_ todo : list A) (a : A) (acc acc1 : S) s s1 s2 e :
  for_each body done_ acc s = (Ok acc1, s1) ->
  body a acc1 s1 = (Raise e, s2) ->
  for_each body (done_ ++ a :: todo) acc s = (Raise e, s2).
Proof.
  revert acc s. induction done_ as [|a0 l IH]; intros acc s; simpl.
  - intros [= -> ->] Hbody. by rewrite (bind_Raise _ _ _ _ _ Hbody).
  - unfold bind. destruct (body a0 acc s) as [[acc0|e0] s0]; [|done].
    apply IH.
Qed.

(** *** [find_blocks_in_chunks] *)

Lemma find_count (block_id : Z) (blocks : list Block.t) :
  Z.of_nat (length (find_blocks_by_id block_id blocks))
  = count_ids [block_id] blocks.
Proof.
  unfold find_blocks_by_id, count_ids. rewrite find_fold. simpl.
  rewrite length_map. do 2 f_equal. apply list_filter_iff.
  intros b. by rewrite list_elem_of_singleton.
Qed.

Lemma find_in_chunks_fold (block_id : Z) (chunk_list : list Chunk)
    (results : list (list (Z * Z * Z))) s :
  for_each (find_in_chunk block_id) chunk_list results s
  = match decode_chunks chunk_list s with
    | (Ok decoded, s') =>
        (Ok (results ++ zip_with (chunk_entry block_id) chunk_list decoded), s')
    | (Raise e, s') => (Raise e, s')
    end.
Proof.
  revert results s. induction chunk_list as [|chunk rest IH]; intros results s.
  - simpl. unfold ret. by rewrite app_nil_r.
  - simpl. unfold find_in_chunk, bind.
    destruct (call (get_chunk_matrice chunk) s) as [[blocks|e] s1]; [|done].
    unfold ret at 1. rewrite IH.
    destruct (decode_chunks rest s1) as [[decoded|e] s2]; [|done].
    unfold ret. simpl. by rewrite <- app_assoc, find_count.
Qed.

Lemma decode_chunks_length (chunk_list : list Chunk) s decoded s' :
  decode_chunks chunk_list s = (Ok decoded, s') ->
  length decoded = length chunk_list.
Proof.
  revert s decoded. induction chunk_list as [|chunk rest IH]; intros s decoded.
  - by intros [= <- _].
  - simpl. unfold bind at 1.
    destruct (call (get_chunk_matrice chunk) s) as [[blocks|e] s1]; [|done].
    unfold bind. destruct (decode_chunks rest s1) as [[others|e] s2] eqn:Hrest;
      [|done].
    unfold ret. intros [= <- <-]. simpl. f_equal. by eapply IH.
Qed.

(** C7: [find_blocks_in_chunks] returns one entry per chunk of the input
    list, in the order of the list, the entry of a chunk binding its pair
    [(chunk.x, chunk.z)] to the number of its blocks whose id is the target;
    a chunk without such a block has the entry with count 0. *)
Theorem find_blocks_in_chunks_per_chunk (block_id : Z)
    (chunk_list : list Chunk) s (decoded : list (list Block.t)) s' :
  decode_chunks chunk_list s = (Ok decoded, s') ->
  find_blocks_in_chunks block_id chunk_list s
    = (Ok (zip_with (chunk_entry block_id) chunk_list decoded), s')
  /\ length (zip_with (chunk_entry block_id) chunk_list decoded)
     = length chunk_list
  /\ (forall (i : nat) (chunk : Chunk) (blocks : list Block.t),
        chunk_list !! i = Some chunk -> decoded !! i = Some blocks ->
        zip_with (chunk_entry block_id) chunk_list decoded !! i
        = Some [((chunk_x chunk, chunk_z chunk), count_ids [block_id] blocks)])
  /\ (forall (chunk : Chunk) (blocks : list Block.t),
        chunk_entry block_id chunk
          (filter (fun b => Block.id b <> block_id) blocks)
        = [((chunk_x chunk, chunk_z chunk), 0)]).
Proof.
  intros Hdec. split_and!.
  - unfold find_blocks_in_chunks. by rewrite find_in_chunks_fold, Hdec.
  - rewrite length_zip_with. apply decode_chunks_length in Hdec. lia.
  - intros i chunk blocks Hc Hb. rewrite lookup_zip_with, Hc. simpl.
    by rewrite Hb.
  - intros chunk blocks. unfold chunk_entry, count_ids.
    rewrite list_filter_filter.
    replace (filter _ blocks) with (@nil Block.t); [done|].
    symmetry. induction blocks as [|b l IH]; [done|].
    rewrite filter_cons_False; [done|].
    rewrite list_elem_of_singleton. tauto.
Qed.
End Runs.

Lemma find_blocks_in_chunks_per_chunk_witness :
  @decode_chunks _ _ _ _ (mem_chunks sample_world) [rf_chunk; air_chunk] start
    = (Ok [[Block.mk 3886 0 1 0; Block.mk 0 0 2 0; Block.mk 3886 0 3 0;
            Block.mk 3886 1 1 0; Block.mk 3886 1 2 0]; [Block.mk 0 0 0 0]],
       State 2%nat [])
  /\ @find_blocks_in_chunks _ _ _ _ (mem_chunks sample_world) 3886
       [rf_chunk; air_chunk] start
     = (Ok [[((5, -3), 4)]; [((2, 2), 0)]], State 2%nat []).
Proof.
  split; [reflexivity|].
  destruct (@find_blocks_in_chunks_per_chunk _ _ _ _ (mem_chunks sample_world)
              3886 [rf_chunk; air_chunk] start _ _ eq_refl) as (-> & _).
  reflexivity.
Defined.

Section WorldRuns.
Context {World Exn File Chunk : Type} `{!Chunks World Exn File Chunk}.
Implicit Types (s : state World) (e : Exn) (chunk : Chunk).
Implicit Types (seen : list (Chunk * list Block.t)).
Implicit Types (report : list (string * list (option string * Z))).

(** *** The first loop *)

Lemma locations_of_snoc seen (o : Chunk * list Block.t) :
  locations_of (seen ++ [o])
  = store_chunk_counts (fst o) (count_blocks_in_chunk (snd o)) (locations_of seen).
Proof. unfold locations_of. by rewrite fold_left_app. Qed.

Lemma process_chunks_decode (chunk_list : list Chunk) seen s :
  for_each process_chunk chunk_list (locations_of seen) s
  = match for_each decode_chunk chunk_list seen s with
    | (Ok seen', s') => (Ok (locations_of seen'), s')
    | (Raise e, s') => (Raise e, s')
    end.
Proof.
  revert seen s. induction chunk_list as [|chunk rest IH]; intros seen s;
    [done|].
  simpl. unfold process_chunk, decode_chunk, bind.
  destruct (call (get_chunk_matrice chunk) s) as [[blocks|e] s1]; [|done].
  unfold ret at 1 3.
  change (store_chunk_counts chunk (count_blocks_in_chunk blocks) (locations_of seen))
    with (store_chunk_counts (fst (chunk, blocks))
            (count_blocks_in_chunk (snd (chunk, blocks))) (locations_of seen)).
  rewrite <- locations_of_snoc. apply IH.
Qed.

Lemma process_files_decode (files : list File) seen s :
  for_each process_file files (locations_of seen) s
  = match for_each decode_file files seen s with
    | (Ok seen', s') => (Ok (locations_of seen'), s')
    | (Raise e, s') => (Raise e, s')
    end.
Proof.
  revert seen s. induction files as [|file rest IH]; intros seen s; [done|].
  simpl. unfold process_file, decode_file, bind.
  destruct (call (get_list_of_chunks_by_mca file) s) as [[chunk_list|e] s1];
    [|done].
  rewrite process_chunks_decode.
  destruct (for_each decode_chunk chunk_list seen s1) as [[seen'|e] s2];
    [apply IH|done].
Qed.

(** The first loop computes the report of the chunks the provider yields,
    and raises what the provider raises. *)
Lemma scan_world_decode s :
  scan_world s
  = match decode_world s with
    | (Ok seen, s') => (Ok (locations_of seen), s')
    | (Raise e, s') => (Raise e, s')
    end.
Proof.
  unfold scan_world, decode_world, bind.
  destruct (call (get_mca_files "cyan" EmptyString) s) as [[files|e] s1];
    [|done].
  apply (process_files_decode files []).
Qed.

(** Listing and decoding print nothing. *)
Lemma for_each_stdout {A S} (body : A -> S -> M World Exn S) (l : list A) :
  (forall a acc s r s', body a acc s = (r, s') -> stdout s' = stdout s) ->
  forall acc s r s', for_each body l acc s = (r, s') -> stdout s' = stdout s.
Proof.
  intros Hbody. induction l as [|a l IH]; intros acc s r s'; simpl.
  - by intros [= _ <-].
  - unfold bind. destruct (body a acc s) as [[acc1|e] s1] eqn:Ha.
    + intros Hl. rewrite (IH _ _ _ _ Hl). by eapply Hbody.
    + intros [= _ <-]. by eapply Hbody.
Qed.

Lemma decode_chunk_stdout chunk seen s r s' :
  decode_chunk chunk seen s = (r, s') -> stdout s' = stdout s.
Proof.
  unfold decode_chunk, bind.
  destruct (call (get_chunk_matrice chunk) s) as [[blocks|e] s1] eqn:Hc;
    intros [= _ <-]; by eapply call_stdout.
Qed.

Lemma decode_file_stdout (file : File) seen s r s' :
  decode_file file seen s = (r, s') -> stdout s' = stdout s.
Proof.
  unfold decode_file, bind.
  destruct (call (get_list_of_chunks_by_mca file) s) as [[chunk_list|e] s1] eqn:Hc.
  - intros Hl. rewrite <- (call_stdout _ _ _ _ Hc).
    revert Hl. apply for_each_stdout. intros a acc. apply decode_chunk_stdout.
  - intros [= _ <-]. by eapply call_stdout.
Qed.

Lemma decode_world_stdout s r s' :
  decode_world s = (r, s') -> stdout s' = stdout s.
Proof.
  unfold decode_world, bind.
  destruct (call (get_mca_files "cyan" EmptyString) s) as [[files|e] s1] eqn:Hc.
  - intros Hl. rewrite <- (call_stdout _ _ _ _ Hc).
    revert Hl. apply for_each_stdout. intros a acc. apply decode_file_stdout.
  - intros [= _ <-]. by eapply call_stdout.
Qed.

(** *** The second loop and the summary *)

Lemma update_totals_fold report (totals : Totals) :
  fold_left (fun t item => update_totals (snd item) t) report totals
  = mkTotals (chest totals + chest (report_totals report))
             (obsidian totals + obsidian (report_totals report))
             (rf totals + rf (report_totals report)).
Proof.
  revert totals. induction report as [|item report IH]; intros [c o r]; simpl.
  - f_equal; lia.
  - rewrite IH. unfold update_totals. simpl. unfold Zsum. f_equal; lia.
Qed.

Lemma print_locations_fold report (totals : Totals) s :
  (for_each print_location report totals : M World Exn Totals) s
  = (Ok (fold_left (fun t item => update_totals (snd item) t) report totals),
     State (world s) (stdout s ++ map location_line report)).
Proof.
  revert totals s. induction report as [|item report IH]; intros totals [w out].
  - simpl. unfold ret. by rewrite app_nil_r.
  - simpl. unfold print_location, bind, print, ret. simpl.
    rewrite IH. simpl. by rewrite <- app_assoc.
Qed.

Lemma print_results_run report s :
  (print_results report : M World Exn Totals) s
  = (Ok (report_totals report),
     State (world s) (stdout s ++ map location_line report)).
Proof.
  unfold print_results. rewrite print_locations_fold, update_totals_fold.
  by destruct (report_totals report).
Qed.

Lemma print_summary_run (totals : Totals) s :
  (print_summary totals : M World Exn unit) s
  = (Ok tt, State (world s) (stdout s ++ summary_lines totals)).
Proof.
  destruct s as [w out]. unfold print_summary, bind, print, summary_lines.
  simpl. by rewrite <- !app_assoc.
Qed.

(** A whole run: what the provider raises is raised, and otherwise the
    report of the chunks it yields is printed. *)
Lemma analyze_world_chunks_run s :
  analyze_world_chunks s
  = match decode_world s with
    | (Ok seen, s') =>
        (Ok tt, State (world s') (stdout s ++ report_lines (locations_of seen)))
    | (Raise e, s') => (Raise e, s')
    end.
Proof.
  unfold analyze_world_chunks, bind at 1. rewrite scan_world_decode.
  destruct (decode_world s) as [[seen|e] s'] eqn:Hd; [|done].
  unfold bind. rewrite print_results_run, print_summary_run. simpl.
  rewrite (decode_world_stdout _ _ _ Hd). unfold report_lines.
  by rewrite <- app_assoc.
Qed.
(** *** What a run stores, prints and raises *)

(** C5: a processed chunk has its count mapping stored in the location
    report exactly when the mapping is not empty; it is stored under the
    label made of the chunk coordinates times 16 ("x:80, z:-48" for the
    chunk at x=5, z=-3), where it replaces the entry an earlier chunk left
    under that label; the other entries stay. *)
Theorem chunk_counts_stored chunk report s (block_list : list Block.t)
    (w' : World) :
  get_chunk_matrice chunk (world s) = (Ok block_list, w') ->
  let block_counts := count_blocks_in_chunk block_list in
  let label :=
    "x:" +:+ str (chunk_x chunk * 16) +:+ ", z:" +:+ str (chunk_z chunk * 16) in
  let report' := store_chunk_counts chunk block_counts report in
  process_chunk chunk report s = (Ok report', State w' (stdout s))
  /\ report' = (if decide (block_counts = []) then report
                else Dict.set label block_counts report)
  /\ Dict.lookup label report'
     = (if decide (block_counts = []) then Dict.lookup label report
        else Some block_counts)
  /\ (forall other : string,
        other <> label -> Dict.lookup other report' = Dict.lookup other report)
  /\ Dict.keys report'
     = (if decide (block_counts = [] \/ Dict.mem label report = true)
        then Dict.keys report else Dict.keys report ++ [label])
  /\ (chunk_x chunk = 5 -> chunk_z chunk = -3 -> label = "x:80, z:-48").
Proof.
  intros Hcall block_counts label report'.
  assert (report' = (if decide (block_counts = []) then report
                     else Dict.set label block_counts report)) as Hstore.
  { unfold report', store_chunk_counts. by destruct block_counts. }
  split_and!; [|done|..].
  - unfold process_chunk, bind, call. by rewrite Hcall.
  - rewrite Hstore. destruct (decide (block_counts = [])); [done|].
    apply lookup_set_eq.
  - intros other Hother. rewrite Hstore.
    destruct (decide (block_counts = [])); [done|]. by apply lookup_set_ne.
  - rewrite Hstore. destruct (decide (block_counts = [])) as [Hnil|Hnil].
    + by rewrite decide_True by tauto.
    + rewrite keys_set. destruct (Dict.mem label report).
      * by rewrite decide_True by tauto.
      * rewrite decide_False; [done|]. intros [?|?]; done.
  - intros Hx Hz. unfold label. by rewrite Hx, Hz.
Qed.

(** C6: once every chunk is processed, the entries of the location report
    are printed in the order of the report, one line per entry made of its
    label and its count mapping; the "chest", "obsidian" and "rf" counts of
    the entries, 0 for an entry without the key, are summed; and three
    lines close the output: total chests, total obsidian, total RF blocks,
    in this order. *)
Theorem report_printed s0 report s :
  scan_world s0 = (Ok report, s) ->
  analyze_world_chunks s0
  = (Ok tt,
     State (world s)
       (stdout s0
        ++ map (fun item => fst item +:+ ": " +:+ repr_counts (snd item)) report
        ++ [ "Total chests: "
               +:+ str (Zsum (map (fun item => Dict.get (Some "chest") 0 (snd item)) report));
             "Total obsidian: "
               +:+ str (Zsum (map (fun item => Dict.get (Some "obsidian") 0 (snd item)) report));
             "Total RF blocks: "
               +:+ str (Zsum (map (fun item => Dict.get (Some "rf") 0 (snd item)) report)) ]))
  /\ run_totals s0
     = (Ok (report_totals report),
        State (world s)
          (stdout s0
           ++ map (fun item => fst item +:+ ": " +:+ repr_counts (snd item)) report)).
Proof.
  intros Hscan.
  assert (stdout s = stdout s0) as Hout.
  { rewrite scan_world_decode in Hscan.
    destruct (decode_world s0) as [[seen|e] s1] eqn:Hd; [|done].
    injection Hscan as _ <-. by eapply decode_world_stdout. }
  unfold analyze_world_chunks, run_totals.
  rewrite !(bind_Ok _ _ _ _ _ Hscan).
  unfold bind. rewrite print_results_run, print_summary_run. simpl.
  rewrite Hout. split; [|done]. by rewrite <- app_assoc.
Qed.

(** C9: nothing is caught.  When the provider raises while the files are
    listed, the chunks of a file are listed or a chunk is decoded, the run
    ends with that exception, in the state the provider left: no call is
    made again or after it, and no line is printed, neither for the chunks
    already processed nor as a summary. *)
Theorem provider_failure_aborts s e s' :
  decode_world s = (Raise e, s') ->
  analyze_world_chunks s = (Raise e, s')
  /\ scan_world s = (Raise e, s')
  /\ stdout s' = stdout s.
Proof.
  intros Hd. rewrite analyze_world_chunks_run, scan_world_decode, Hd.
  split_and!; [done|done|]. by eapply decode_world_stdout.
Qed.

(** The three places where the provider may raise. *)
Lemma listing_files_raises s e (w' : World) :
  get_mca_files "cyan" EmptyString (world s) = (Raise e, w') ->
  decode_world s = (Raise e, State w' (stdout s)).
Proof. intros Hc. unfold decode_world, bind, call. by rewrite Hc. Qed.

Lemma listing_chunks_raises (file : File) seen s e (w' : World) :
  get_list_of_chunks_by_mca file (world s) = (Raise e, w') ->
  decode_file file seen s = (Raise e, State w' (stdout s)).
Proof. intros Hc. unfold decode_file, bind, call. by rewrite Hc. Qed.

Lemma decoding_chunk_raises chunk seen s e (w' : World) :
  get_chunk_matrice chunk (world s) = (Raise e, w') ->
  decode_chunk chunk seen s = (Raise e, State w' (stdout s)).
Proof. intros Hc. unfold decode_chunk, bind, call. by rewrite Hc. Qed.
End WorldRuns.

Lemma chunk_counts_stored_witness :
  @get_chunk_matrice _ _ _ _ (mem_chunks sample_world) rf_chunk (world start)
    = (Ok [Block.mk 3886 0 1 0; Block.mk 0 0 2 0; Block.mk 3886 0 3 0;
           Block.mk 3886 1 1 0; Block.mk 3886 1 2 0], 1%nat)
  /\ @process_chunk _ _ _ _ (mem_chunks sample_world) rf_chunk
       [("x:80, z:-48", [(Some "chest", 1)])] start
     = (Ok [("x:80, z:-48", [(Some "rf", 4)])], State 1%nat []).
Proof.
  split; [reflexivity|].
  destruct (@chunk_counts_stored _ _ _ _ (mem_chunks sample_world) rf_chunk
              [("x:80, z:-48", [(Some "chest", 1)])] start _ _ eq_refl)
    as (-> & _).
  reflexivity.
Defined.

Lemma report_printed_witness :
  @scan_world _ _ _ _ (mem_chunks sample_world) start
    = (Ok [ ("x:80, z:-48", [(Some "rf", 4)]);
            ("x:16, z:0", [(Some "chest", 2); (Some "obsidian", 1)]) ],
       State 6%nat [])
  /\ @analyze_world_chunks _ _ _ _ (mem_chunks sample_world) start
     = (Ok tt,
        State 6%nat
          [ "x:80, z:-48: {'rf': 4}";
            "x:16, z:0: {'chest': 2, 'obsidian': 1}";
            "Total chests: 2"; "Total obsidian: 1"; "Total RF blocks: 4" ]).
Proof.
  split; [reflexivity|].
  destruct (@report_printed _ _ _ _ (mem_chunks sample_world) start _ _ eq_refl)
    as (-> & _).
  reflexivity.
Defined.

Lemma provider_failure_aborts_witness :
  @decode_world _ _ _ _ (mem_chunks corrupt_world) start
    = (Raise "corrupt chunk", State 4%nat [])
  /\ @analyze_world_chunks _ _ _ _ (mem_chunks corrupt_world) start
     = (Raise "corrupt chunk", State 4%nat []).
Proof.
  split; [reflexivity|].
  apply (@provider_failure_aborts _ _ _ _ (mem_chunks corrupt_world) start).
  reflexivity.
Defined.

(** ** Totals *)

(** Labels tell chunk coordinates apart. *)
Lemma label_inj (a b a' b' : string) :
  comma_free a = true -> comma_free a' = true ->
  "x:" +:+ a +:+ ", z:" +:+ b = "x:" +:+ a' +:+ ", z:" +:+ b' ->
  a = a' /\ b = b'.
Proof.
  intros Ha Ha' Heq. simpl in Heq. injection Heq as Heq.
  apply append_comma_inj in Heq as [-> Heq]; [|done..].
  by injection Heq as ->.
Qed.

(** The count a mapping gives for a name, 0 when the name is no key. *)
Lemma count_get (name : option string) (blocks : list Block.t) :
  Dict.get name 0 (count_blocks_in_chunk blocks) = occurrences name blocks.
Proof.
  unfold Dict.get. rewrite count_lookup.
  by destruct (decide (occurrences name blocks = 0)) as [->|].
Qed.

Lemma count_ids_app (ids : list Z) (l1 l2 : list Block.t) :
  count_ids ids (l1 ++ l2) = count_ids ids l1 + count_ids ids l2.
Proof. unfold count_ids. rewrite filter_app, length_app. lia. Qed.

(** A block list whose count mapping is empty has no block among non-air
    ids. *)
Lemma count_ids_empty (ids : list Z) (blocks : list Block.t) :
  0 ∉ ids -> count_blocks_in_chunk blocks = [] -> count_ids ids blocks = 0.
Proof.
  intros Hids Hnil%count_empty. unfold count_ids.
  replace (filter _ blocks) with (@nil Block.t); [done|].
  symmetry. induction blocks as [|b l IH]; [done|].
  rewrite filter_cons in Hnil. destruct (decide (Block.id b <> 0)) as [|Hb];
    [done|].
  rewrite filter_cons_False; [by apply IH|].
  intros Hin. apply Hb. intros Hz. by rewrite Hz in Hin.
Qed.

Section TotalsFacts.
Context {World Exn File Chunk : Type} `{!Chunks World Exn File Chunk}.
Implicit Types (s : state World) (chunk : Chunk).
Implicit Types (seen : list (Chunk * list Block.t)).
Implicit Types (report : list (string * list (option string * Z))).

Lemma chunk_key_inj chunk chunk' :
  chunk_key chunk = chunk_key chunk' -> chunk_coords chunk = chunk_coords chunk'.
Proof.
  unfold chunk_key, chunk_coords. intros Heq.
  apply label_inj in Heq as [Hx Hz]; [|apply str_comma_free..].
  apply str_inj in Hx. apply str_inj in Hz. f_equal; lia.
Qed.

Lemma locations_keys_NoDup seen : NoDup (Dict.keys (locations_of seen)).
Proof.
  induction seen as [|o seen IH] using rev_ind; [apply NoDup_nil_2|].
  rewrite locations_of_snoc. unfold store_chunk_counts.
  destruct (count_blocks_in_chunk (snd o)); [done|]. by apply keys_set_NoDup.
Qed.

Lemma stored_snoc seen (o : Chunk * list Block.t) :
  stored (seen ++ [o])
  = stored seen ++ (if decide (count_blocks_in_chunk (snd o) <> []) then [o] else []).
Proof. unfold stored. by rewrite filter_app, filter_cons, filter_nil. Qed.

Lemma last_writes_snoc (l : list (Chunk * list Block.t)) (o : Chunk * list Block.t) :
  last_writes (l ++ [o])
  = filter (fun o' => chunk_key (fst o') <> chunk_key (fst o)) (last_writes l) ++ [o].
Proof.
  induction l as [|a l IH]; simpl; [done|].
  rewrite map_app. simpl.
  destruct (decide (chunk_key (fst a) ∈ map (fun o' => chunk_key (fst o')) l))
    as [Hin|Hin].
  - rewrite decide_True by (apply elem_of_app; by left). apply IH.
  - destruct (decide (chunk_key (fst a) = chunk_key (fst o))) as [Heq|Hne].
    + rewrite decide_True
        by (apply elem_of_app; right; rewrite Heq; apply list_elem_of_singleton; done).
      rewrite filter_cons_False by tauto. apply IH.
    + rewrite decide_False.
      { rewrite filter_cons_True by done. simpl. by rewrite IH. }
      rewrite elem_of_app, list_elem_of_singleton. tauto.
Qed.

Lemma filter_entries (label : string) (l : list (Chunk * list Block.t)) :
  filter (fun e : string * list (option string * Z) => fst e <> label)
    (map entry_of l)
  = map entry_of (filter (fun o => chunk_key (fst o) <> label) l).
Proof.
  induction l as [|o l IH]; [done|]. simpl. rewrite !filter_cons, IH. simpl.
  by destruct (decide (chunk_key (fst o) <> label)).
Qed.

(** The report holds the entries of the retained chunks, and no other. *)
Lemma locations_retained seen :
  locations_of seen ≡ₚ map entry_of (retained seen).
Proof.
  induction seen as [|o seen IH] using rev_ind; [done|].
  rewrite locations_of_snoc. unfold retained. rewrite stored_snoc.
  unfold store_chunk_counts.
  destruct (count_blocks_in_chunk (snd o)) as [|c cs] eqn:Hc.
  - rewrite decide_False by tauto. by rewrite app_nil_r.
  - rewrite decide_True by done. rewrite last_writes_snoc, map_app. simpl.
    rewrite set_Permutation by apply locations_keys_NoDup.
    rewrite IH, filter_entries. unfold entry_of at 3. rewrite Hc.
    apply Permutation_cons_append.
Qed.

Lemma report_totals_Permutation report report' :
  report ≡ₚ report' -> report_totals report = report_totals report'.
Proof.
  intros Hp. unfold report_totals.
  f_equal; apply Zsum_Permutation, Permutation_map, Hp.
Qed.

(** The totals of the entries of given chunks count their blocks. *)
Lemma entries_totals_exact (l : list (Chunk * list Block.t)) :
  totals_exact l (report_totals (map entry_of l)).
Proof.
  unfold totals_exact, report_totals, all_blocks. simpl.
  rewrite !map_map. simpl.
  induction l as [|o l (IHc & IHo & IHr)]; [done|]. simpl.
  rewrite !count_ids_app, !count_get. unfold Zsum in *.
  rewrite IHc, IHo, IHr.
  rewrite (occurrences_ids _ _ _ chest_ids), (occurrences_ids _ _ _ obsidian_ids),
    (occurrences_ids _ _ _ rf_ids). done.
Qed.

Lemma last_writes_NoDup (l : list (Chunk * list Block.t)) :
  NoDup (map (fun o => chunk_key (fst o)) l) -> last_writes l = l.
Proof.
  induction l as [|o l IH]; [done|]. simpl.
  intros [Hnot Hnd]%NoDup_cons. rewrite decide_False by done.
  f_equal. by apply IH.
Qed.

Lemma stored_blocks (ids : list Z) seen :
  0 ∉ ids ->
  count_ids ids (all_blocks (stored seen)) = count_ids ids (all_blocks seen).
Proof.
  intros Hids. unfold all_blocks, stored.
  induction seen as [|o seen IH]; [done|].
  rewrite filter_cons. simpl.
  destruct (decide (count_blocks_in_chunk (snd o) <> [])) as [Hne|Hnil]; simpl;
    rewrite !count_ids_app, IH; [done|].
  assert (count_ids ids (snd o) = 0) as Hzero.
  { apply count_ids_empty; [done|].
    destruct (count_blocks_in_chunk (snd o)); [done|].
    exfalso. by apply Hnil. }
  lia.
Qed.
Lemma last_writes_elem (l : list (Chunk * list Block.t)) (o : Chunk * list Block.t) :
  o ∈ last_writes l -> o ∈ l.
Proof.
  induction l as [|a l IH]; [done|]. simpl.
  destruct (decide _); rewrite ?elem_of_cons; intuition.
Qed.

Lemma retained_elem seen (o : Chunk * list Block.t) : o ∈ retained seen -> o ∈ seen.
Proof.
  unfold retained, stored. intros Hin%last_writes_elem.
  by apply list_elem_of_filter in Hin as [_ ?].
Qed.

(** Chunks with distinct coordinates have distinct labels. *)
Lemma labels_NoDup (l : list (Chunk * list Block.t)) :
  NoDup (map (fun o => chunk_coords (fst o)) l) ->
  NoDup (map (fun o => chunk_key (fst o)) l).
Proof.
  induction l as [|o l IH]; simpl; [intros _; apply NoDup_nil_2|].
  intros [Hnot Hnd]%NoDup_cons. apply NoDup_cons. split; [|by apply IH].
  intros (o' & Hkey & Hin)%list_elem_of_fmap. apply Hnot.
  apply list_elem_of_fmap. exists o'. split; [|done]. by apply chunk_key_inj.
Qed.

(** C2, amended: in every run, each count of a per-chunk mapping is
    positive and is the exact number of non-air blocks of the chunk counted
    under its key, and each mapping of the location report is the mapping
    of a processed chunk.  The final totals are non-negative and are the
    exact numbers of chest, obsidian and RF blocks of the chunks whose
    entry the report retains: for each label, the last processed chunk
    with that label and a non-empty mapping.  When the processed chunks
    with a non-empty mapping have pairwise distinct coordinates, the totals
    are the exact numbers over all the processed chunks.  Air blocks
    contribute to no count. *)
Theorem totals_count_retained_chunks s seen s' :
  decode_world s = (Ok seen, s') ->
  let report := locations_of seen in
  let totals := report_totals report in
  scan_world s = (Ok report, s')
  /\ run_totals s
     = (Ok totals, State (world s') (stdout s ++ map location_line report))
  /\ analyze_world_chunks s
     = (Ok tt,
        State (world s')
          (stdout s ++ map location_line report ++ summary_lines totals))
  /\ Forall (fun o : Chunk * list Block.t =>
       forall (name : option string) (n : Z),
         Dict.lookup name (count_blocks_in_chunk (snd o)) = Some n ->
         0 < n /\ n = occurrences name (snd o)) seen
  /\ Forall (fun item => exists o, o ∈ seen /\ item = entry_of o) report
  /\ 0 <= chest totals /\ 0 <= obsidian totals /\ 0 <= rf totals
  /\ totals_exact (retained seen) totals
  /\ (NoDup (map (fun o => chunk_coords (fst o)) (stored seen)) ->
      totals_exact seen totals).
Proof.
  intros Hd report totals.
  assert (scan_world s = (Ok report, s')) as Hscan
    by (by rewrite scan_world_decode, Hd).
  assert (totals_exact (retained seen) totals) as Hexact.
  { unfold totals, report.
    rewrite (report_totals_Permutation _ _ (locations_retained seen)).
    apply entries_totals_exact. }
  split_and!; [done|..|done|].
  - unfold run_totals. rewrite (bind_Ok _ _ _ _ _ Hscan), print_results_run.
    by rewrite (decode_world_stdout _ _ _ Hd).
  - by rewrite analyze_world_chunks_run, Hd.
  - apply Forall_forall. intros o _ name n. rewrite count_lookup.
    pose proof (occurrences_nonneg name (snd o)).
    destruct (decide _); intros [= <-]. lia.
  - apply Forall_forall. intros item Hin. unfold report in Hin.
    rewrite (locations_retained seen) in Hin.
    apply list_elem_of_fmap in Hin as (o & -> & Hin).
    exists o. split; [by apply retained_elem|done].
  - destruct Hexact as (-> & _). unfold count_ids. lia.
  - destruct Hexact as (_ & -> & _). unfold count_ids. lia.
  - destruct Hexact as (_ & _ & ->). unfold count_ids. lia.
  - intros Hnd%labels_NoDup. unfold retained in Hexact.
    rewrite (last_writes_NoDup _ Hnd) in Hexact.
    destruct Hexact as (Hc & Ho & Hr). unfold totals_exact.
    rewrite Hc, Ho, Hr, !stored_blocks; [done|..];
      rewrite ?elem_of_cons, elem_of_nil; lia.
Qed.
End TotalsFacts.

(** C2, as stated, fails: of two chunks with the same coordinates, the
    second replaces the entry of the first, whose chest is then missing
    from the totals. *)
Lemma totals_miss_overwritten_chunk :
  @decode_world _ _ _ _ (mem_chunks overwritten_world) start
    = (Ok overwritten_seen, State 4%nat [])
  /\ ~ (forall (totals : Totals) (s' : state nat),
          @run_totals _ _ _ _ (mem_chunks overwritten_world) start
            = (Ok totals, s') ->
          totals_exact overwritten_seen totals).
Proof.
  split; [reflexivity|]. intros Hclaim.
  destruct (Hclaim _ _ eq_refl) as [Hchest _].
  vm_compute in Hchest. discriminate.
Qed.

Lemma totals_count_retained_chunks_witness :
  exists seen : list (MemChunk * list Block.t),
    @decode_world _ _ _ _ (mem_chunks sample_world) start
      = (Ok seen, State 6%nat [])
    /\ NoDup (map (fun o => @chunk_coords _ _ _ _ (mem_chunks sample_world) (fst o))
                (stored seen))
    /\ @run_totals _ _ _ _ (mem_chunks sample_world) start
       = (Ok (mkTotals 2 1 4),
          State 6%nat
            [ "x:80, z:-48: {'rf': 4}";
              "x:16, z:0: {'chest': 2, 'obsidian': 1}" ])
    /\ totals_exact seen (mkTotals 2 1 4).
Proof.
  eexists. split; [reflexivity|].
  match goal with |- NoDup ?l /\ _ =>
    assert (NoDup l) as Hnd
      by (apply (bool_decide_unpack _); vm_compute; exact I)
  end.
  split; [exact Hnd|].
  destruct (@totals_count_retained_chunks _ _ _ _ (mem_chunks sample_world)
              start _ _ eq_refl) as (_ & Hrun & _ & _ & _ & _ & _ & _ & _ & Hexact).
  split; [rewrite Hrun; reflexivity|].
  exact (Hexact Hnd).
Defined.

(** ** Further properties of the scanner and the counter *)

Lemma first_occurrences_elem {A} `{EqDecision A} (l : list A) (x : A) :
  x ∈ first_occurrences l <-> x ∈ l.
Proof.
  induction l as [|a l IH]; simpl; [done|].
  rewrite !elem_of_cons, list_elem_of_filter, IH.
  destruct (decide (x = a)); tauto.
Qed.

Lemma first_occurrences_snoc {A} `{EqDecision A} (l : list A) (x : A) :
  first_occurrences (l ++ [x])
  = if decide (x ∈ l) then first_occurrences l else first_occurrences l ++ [x].
Proof.
  induction l as [|a l IH]; simpl; [done|].
  rewrite IH. destruct (decide (x ∈ l)) as [Hin|Hin].
  - rewrite decide_True; [done|]. by right.
  - rewrite filter_app, filter_cons, filter_nil.
    destruct (decide (x = a)) as [->|Hne].
    + rewrite (decide_True (P := a ∈ a :: l)) by left.
      rewrite decide_False by tauto. by rewrite app_nil_r.
    + rewrite (decide_False (P := x ∈ a :: l)) by (rewrite elem_of_cons; tauto).
      by rewrite decide_True by done.
Qed.

Lemma mem_keys {K V} `{EqDecision K} (k : K) (d : list (K * V)) :
  Dict.mem k d = true <-> k ∈ Dict.keys d.
Proof.
  unfold Dict.mem. destruct (Dict.lookup k d) eqn:Hl.
  - split; [intros _|done]. destruct (decide (k ∈ Dict.keys d)); [done|].
    apply lookup_None_keys in n. congruence.
  - split; [done|]. intros Hin. by apply lookup_None_keys in Hl.
Qed.

Lemma keys_increment (name : option string) (d : list (option string * Z)) :
  Dict.keys (increment name d)
  = if decide (name ∈ Dict.keys d) then Dict.keys d else Dict.keys d ++ [name].
Proof.
  unfold increment. pose proof (mem_keys name d) as Hm.
  destruct (Dict.mem name d) eqn:Hmem; rewrite keys_set, Hmem.
  - by rewrite decide_True by tauto.
  - rewrite decide_False; [done|]. intros Hin. apply Hm in Hin. done.
Qed.

(** X1: the keys of the result of [count_blocks_in_chunk] come in the order
    in which their names first occur among the non-air blocks. *)
Theorem count_keys_first_occurrence (blocks : list Block.t) :
  Dict.keys (count_blocks_in_chunk blocks)
  = first_occurrences
      (map (fun b => block_name_of (Block.id b))
         (filter (fun b => Block.id b <> 0) blocks)).
Proof.
  induction blocks as [|b blocks IH] using rev_ind; [done|].
  rewrite count_snoc, filter_app, filter_cons, filter_nil. unfold count_step.
  destruct (decide (Block.id b = 0)) as [Hb|Hb].
  - rewrite decide_False by tauto. by rewrite app_nil_r.
  - rewrite decide_True by done. rewrite map_app. simpl.
    rewrite first_occurrences_snoc, keys_increment, IH.
    destruct (decide (_ ∈ first_occurrences _)) as [Hin|Hin].
    + by rewrite decide_True by (by apply first_occurrences_elem).
    + rewrite decide_False; [done|]. intros Hin'. apply Hin.
      by apply first_occurrences_elem.
Qed.

Lemma occurrences_app (name : option string) (l1 l2 : list Block.t) :
  occurrences name (l1 ++ l2) = occurrences name l1 + occurrences name l2.
Proof. unfold occurrences. rewrite filter_app, length_app. lia. Qed.

(** X2: counting a concatenation adds up the counts of its parts, name by
    name (a name without an entry counting for 0). *)
Theorem count_blocks_append (name : option string) (l1 l2 : list Block.t) :
  Dict.get name 0 (count_blocks_in_chunk (l1 ++ l2))
  = Dict.get name 0 (count_blocks_in_chunk l1)
    + Dict.get name 0 (count_blocks_in_chunk l2).
Proof. rewrite !count_get. apply occurrences_app. Qed.

Lemma dict_elem_lookup {K V} `{EqDecision K} (d : list (K * V)) (k : K) (v : V) :
  NoDup (Dict.keys d) -> (k, v) ∈ d <-> Dict.lookup k d = Some v.
Proof.
  intros Hnd. split; [by apply elem_lookup_NoDup|apply lookup_Some_elem].
Qed.

(** X3: the order of the blocks does not change the counts: two block lists
    that are permutations of each other give the same count for every name,
    and mappings with the same entries. *)
Theorem count_blocks_permutation (l1 l2 : list Block.t) :
  l1 ≡ₚ l2 ->
  (forall name : option string,
     Dict.lookup name (count_blocks_in_chunk l1)
     = Dict.lookup name (count_blocks_in_chunk l2))
  /\ count_blocks_in_chunk l1 ≡ₚ count_blocks_in_chunk l2.
Proof.
  intros Hp.
  assert (forall name, Dict.lookup name (count_blocks_in_chunk l1)
                       = Dict.lookup name (count_blocks_in_chunk l2)) as Hl.
  { intros name. rewrite !count_lookup. unfold occurrences.
    by rewrite (Permutation_length (filter_Permutation _ _ _ Hp)). }
  split; [done|]. apply NoDup_Permutation.
  - apply (NoDup_fmap_1 fst), count_keys_NoDup.
  - apply (NoDup_fmap_1 fst), count_keys_NoDup.
  - intros [k v]. rewrite !dict_elem_lookup by apply count_keys_NoDup.
    by rewrite Hl.
Qed.

Lemma count_blocks_permutation_witness :
  scenario_blocks ≡ₚ reverse scenario_blocks
  /\ count_blocks_in_chunk (reverse scenario_blocks)
     = [(Some "obsidian", 1); (Some "chest", 2)]
  /\ count_blocks_in_chunk scenario_blocks
     ≡ₚ count_blocks_in_chunk (reverse scenario_blocks).
Proof.
  assert (scenario_blocks ≡ₚ reverse scenario_blocks) as Hp
    by (symmetry; apply reverse_Permutation).
  split; [exact Hp|]. split; [reflexivity|].
  exact (proj2 (count_blocks_permutation _ _ Hp)).
Defined.

Lemma count_ids_cons (a : Z) (ids : list Z) (blocks : list Block.t) :
  a ∉ ids ->
  count_ids (a :: ids) blocks = count_ids [a] blocks + count_ids ids blocks.
Proof.
  intros Ha. unfold count_ids. induction blocks as [|b l IH]; [done|].
  rewrite !filter_cons.
  destruct (decide (Block.id b ∈ [a])) as [->%list_elem_of_singleton|Hb].
  - rewrite decide_True by left. rewrite (decide_False (P := a ∈ ids)) by done.
    simpl length. lia.
  - destruct (decide (Block.id b ∈ ids)) as [Hin|Hin].
    + rewrite decide_True by (by right). simpl length. lia.
    + rewrite decide_False; [lia|].
      rewrite elem_of_cons. rewrite list_elem_of_singleton in Hb. tauto.
Qed.

(** X4: the counter and the scanner agree: for an id that is neither air nor
    one of the two chest ids, the count under its name is the number of
    records [find_blocks_by_id] returns for it. *)
Theorem count_agrees_with_find (a : Z) (blocks : list Block.t) :
  a <> 0 -> a <> 54 -> a <> 146 ->
  Dict.get (block_name_of a) 0 (count_blocks_in_chunk blocks)
  = Z.of_nat (length (find_blocks_by_id a blocks)).
Proof.
  intros H0 H54 H146. rewrite count_get, find_count.
  apply occurrences_ids. intros b. rewrite list_elem_of_singleton. split.
  - intros [_ Hb]. apply block_name_of_collide in Hb. lia.
  - by intros ->.
Qed.

Lemma count_agrees_with_find_witness :
  49 <> 0 /\ 49 <> 54 /\ 49 <> 146
  /\ Dict.get (block_name_of 49) 0 (count_blocks_in_chunk scenario_blocks) = 1
  /\ find_blocks_by_id 49 scenario_blocks = [[("x", 0); ("y", 0); ("z", 0)]].
Proof.
  split_and!; [lia|lia|lia| |reflexivity].
  rewrite (count_agrees_with_find 49 scenario_blocks); [reflexivity|lia..].
Defined.

(** X5: the count under "chest" is the number of records
    [find_blocks_by_id] returns for id 54 plus the number it returns for
    id 146. *)
Theorem chest_count_is_both_ids (blocks : list Block.t) :
  Dict.get (Some "chest") 0 (count_blocks_in_chunk blocks)
  = Z.of_nat (length (find_blocks_by_id 54 blocks))
    + Z.of_nat (length (find_blocks_by_id 146 blocks)).
Proof.
  rewrite count_get, !find_count, (occurrences_ids _ _ _ chest_ids).
  apply count_ids_cons. rewrite list_elem_of_singleton. lia.
Qed.

(** X6: every block is either counted or air: the counts of
    [count_blocks_in_chunk] and the number of records [find_blocks_by_id]
    returns for id 0 add up to the number of blocks. *)
Theorem counted_or_air (blocks : list Block.t) :
  Zsum (Dict.values (count_blocks_in_chunk blocks))
  + Z.of_nat (length (find_blocks_by_id 0 blocks))
  = Z.of_nat (length blocks).
Proof.
  rewrite count_sum. unfold find_blocks_by_id. rewrite find_fold. simpl.
  rewrite length_map.
  induction blocks as [|b l IH]; [done|]. rewrite !filter_cons.
  destruct (decide (Block.id b = 0)) as [Hb|Hb].
  - rewrite decide_False by tauto. simpl length. lia.
  - rewrite decide_True by done. simpl length. lia.
Qed.

(** X7: two ids are counted under the same name exactly when they are equal
    or are the two chest ids 54 and 146; no other ids are ever merged. *)
Theorem block_name_of_same_name (a b : Z) :
  block_name_of a = block_name_of b
  <-> a = b \/ (a = 54 /\ b = 146) \/ (a = 146 /\ b = 54).
Proof.
  split; [apply block_name_of_collide|].
  intros [->|[[-> ->]|[-> ->]]]; reflexivity.
Qed.

(** ** Further properties of the runs *)

Lemma count_air_only (blocks : list Block.t) :
  Forall (fun b => Block.id b = 0) blocks -> count_blocks_in_chunk blocks = [].
Proof.
  intros Hair. apply count_empty.
  induction Hair as [|b l Hb _ IH]; [done|].
  rewrite filter_cons_False; [done|]. tauto.
Qed.

Lemma count_ids_nonneg (ids : list Z) (blocks : list Block.t) :
  0 <= count_ids ids blocks.
Proof. unfold count_ids. lia. Qed.

Section MoreRuns.
Context {World Exn File Chunk : Type} `{!Chunks World Exn File Chunk}.
Implicit Types (s : state World) (e : Exn) (chunk : Chunk).
Implicit Types (seen : list (Chunk * list Block.t)).
Implicit Types (report : list (string * list (option string * Z))).

Lemma decode_chunks_stdout (chunk_list : list Chunk) s
    (r : result Exn (list (list Block.t))) s' :
  decode_chunks chunk_list s = (r, s') -> stdout s' = stdout s.
Proof.
  revert s r. induction chunk_list as [|chunk rest IH]; intros s r; simpl.
  - by intros [= _ <-].
  - unfold bind.
    destruct (call (get_chunk_matrice chunk) s) as [[blocks|e] s1] eqn:Hc.
    + destruct (decode_chunks rest s1) as [[others|e] s2] eqn:Hr;
        intros [= _ <-]; rewrite (IH _ _ Hr); by eapply call_stdout.
    + intros [= _ <-]. by eapply call_stdout.
Qed.

(** X8: when the provider raises while the blocks of one of the chunks are
    decoded, [find_blocks_in_chunks] raises that exception and returns no
    entry, not even for the chunks decoded before; it prints nothing. *)
Theorem find_blocks_in_chunks_raises (block_id : Z) (chunk_list : list Chunk)
    s e s' :
  decode_chunks chunk_list s = (Raise e, s') ->
  find_blocks_in_chunks block_id chunk_list s = (Raise e, s')
  /\ stdout s' = stdout s.
Proof.
  intros Hd. split; [|by eapply decode_chunks_stdout].
  unfold find_blocks_in_chunks. by rewrite find_in_chunks_fold, Hd.
Qed.

Lemma entries_sum (block_id : Z) (chunk_list : list Chunk)
    (decoded : list (list Block.t)) :
  length decoded = length chunk_list ->
  Zsum (map (fun entry : list (Z * Z * Z) => Zsum (Dict.values entry))
          (zip_with (chunk_entry block_id) chunk_list decoded))
  = count_ids [block_id] (concat decoded).
Proof.
  revert decoded. induction chunk_list as [|chunk rest IH];
    intros [|blocks decoded] Hlen; try done.
  simpl. rewrite count_ids_app, <- IH by (simpl in Hlen; lia).
  unfold Zsum at 1. simpl. unfold Zsum. lia.
Qed.

(** X9: the counts of the entries [find_blocks_in_chunks] returns add up to
    the number of blocks with the target id in all the chunks together. *)
Theorem find_blocks_in_chunks_total (block_id : Z) (chunk_list : list Chunk)
    s (decoded : list (list Block.t)) s' :
  decode_chunks chunk_list s = (Ok decoded, s') ->
  exists results : list (list (Z * Z * Z)),
    find_blocks_in_chunks block_id chunk_list s = (Ok results, s')
    /\ Zsum (map (fun entry => Zsum (Dict.values entry)) results)
       = Z.of_nat (length (find_blocks_by_id block_id (concat decoded)))
    /\ stdout s' = stdout s.
Proof.
  intros Hd. exists (zip_with (chunk_entry block_id) chunk_list decoded).
  split_and!.
  - unfold find_blocks_in_chunks. by rewrite find_in_chunks_fold, Hd.
  - rewrite find_count. apply entries_sum. by eapply decode_chunks_length.
  - by eapply decode_chunks_stdout.
Qed.

(** X10: two chunks get the same location label exactly when they have the
    same coordinates. *)
Theorem chunk_key_same_iff chunk chunk' :
  chunk_key chunk = chunk_key chunk'
  <-> chunk_x chunk = chunk_x chunk' /\ chunk_z chunk = chunk_z chunk'.
Proof.
  split.
  - intros Heq%chunk_key_inj. unfold chunk_coords in Heq. by injection Heq.
  - intros [Hx Hz]. unfold chunk_key. by rewrite Hx, Hz.
Qed.

Lemma store_other_label (label : string) (after : list (Chunk * list Block.t))
    report :
  Forall (fun o => count_blocks_in_chunk (snd o) = []
                   \/ chunk_key (fst o) <> label) after ->
  Dict.lookup label
    (fold_left (fun report o =>
       store_chunk_counts (fst o) (count_blocks_in_chunk (snd o)) report)
       after report)
  = Dict.lookup label report.
Proof.
  intros Hall. revert report.
  induction Hall as [|o after Ho _ IH]; intros report; [done|].
  simpl. rewrite IH. unfold store_chunk_counts.
  destruct (count_blocks_in_chunk (snd o)) as [|c cs]; [done|].
  apply lookup_set_ne. by destruct Ho.
Qed.

(** X11: last write wins over a whole scan: a processed chunk with a
    non-air block has its mapping in the location report under its label,
    provided no chunk processed after it has both a non-empty mapping and
    the same coordinates; what the chunks before it stored does not matter. *)
Theorem last_write_wins (before after : list (Chunk * list Block.t))
    (o : Chunk * list Block.t) :
  count_blocks_in_chunk (snd o) <> [] ->
  Forall (fun o' => count_blocks_in_chunk (snd o') = []
                    \/ chunk_coords (fst o') <> chunk_coords (fst o)) after ->
  Dict.lookup (chunk_key (fst o)) (locations_of (before ++ o :: after))
  = Some (count_blocks_in_chunk (snd o)).
Proof.
  intros Hne Hafter. unfold locations_of. rewrite fold_left_app. simpl.
  rewrite store_other_label.
  - unfold store_chunk_counts.
    destruct (count_blocks_in_chunk (snd o)); [done|]. apply lookup_set_eq.
  - eapply Forall_impl; [exact Hafter|]. intros o' [Hnil|Hcoords]; [by left|].
    right. intros Hkey. by apply Hcoords, chunk_key_inj.
Qed.

(** X12: the labels of the location report come in the order in which they
    were first stored: the order of first occurrence among the labels of the
    processed chunks with a non-empty mapping. *)
Theorem report_keys_order seen :
  Dict.keys (locations_of seen)
  = first_occurrences (map (fun o => chunk_key (fst o)) (stored seen)).
Proof.
  induction seen as [|o seen IH] using rev_ind; [done|].
  rewrite locations_of_snoc, stored_snoc. unfold store_chunk_counts.
  destruct (count_blocks_in_chunk (snd o)) as [|c cs] eqn:Hc.
  - rewrite decide_False by tauto. by rewrite app_nil_r.
  - rewrite decide_True by done. rewrite map_app. simpl.
    rewrite first_occurrences_snoc, keys_set, <- IH.
    pose proof (mem_keys (chunk_key (fst o)) (locations_of seen)) as Hm.
    rewrite IH, first_occurrences_elem in Hm.
    destruct (Dict.mem _ (locations_of seen)).
    + by rewrite decide_True by tauto.
    + rewrite decide_False; [done|]. intros Hin. apply Hm in Hin. done.
Qed.

Lemma locations_air_only seen :
  Forall (fun o => Forall (fun b => Block.id b = 0) (snd o)) seen ->
  locations_of seen = [].
Proof.
  induction seen as [|o seen IH] using rev_ind; [done|].
  intros [Hseen [Ho _]%Forall_cons]%Forall_app.
  rewrite locations_of_snoc, (count_air_only _ Ho). by apply IH.
Qed.

(** X13: a world where every decoded block is air (or that has no chunk or
    no file at all) gets no location line: the run prints the three summary
    lines only, each with total 0. *)
Theorem air_only_world_prints_zero_totals s seen s' :
  decode_world s = (Ok seen, s') ->
  Forall (fun o => Forall (fun b => Block.id b = 0) (snd o)) seen ->
  analyze_world_chunks s
  = (Ok tt,
     State (world s')
       (stdout s
        ++ ["Total chests: 0"; "Total obsidian: 0"; "Total RF blocks: 0"])).
Proof.
  intros Hd Hair. rewrite analyze_world_chunks_run, Hd.
  by rewrite (locations_air_only _ Hair).
Qed.

Lemma count_ids_last_writes_le (ids : list Z) (l : list (Chunk * list Block.t)) :
  count_ids ids (all_blocks (last_writes l)) <= count_ids ids (all_blocks l).
Proof.
  unfold all_blocks. induction l as [|o l IH]; [done|]. simpl.
  pose proof (count_ids_nonneg ids (snd o)).
  destruct (decide _); simpl; rewrite !count_ids_app; lia.
Qed.

Lemma count_ids_stored_le (ids : list Z) seen :
  count_ids ids (all_blocks (stored seen)) <= count_ids ids (all_blocks seen).
Proof.
  unfold all_blocks, stored. induction seen as [|o seen IH]; [done|].
  rewrite filter_cons. simpl.
  pose proof (count_ids_nonneg ids (snd o)).
  destruct (decide _); simpl; rewrite !count_ids_app; lia.
Qed.

(** X14: the totals never count a block twice or a block that is not there:
    each total is at most the number of matching blocks of all the processed
    chunks (an overwritten entry can only make it smaller). *)
Theorem totals_never_overcount s seen s' :
  decode_world s = (Ok seen, s') ->
  exists totals : Totals,
    run_totals s
      = (Ok totals,
         State (world s') (stdout s ++ map location_line (locations_of seen)))
    /\ chest totals <= count_ids [54; 146] (all_blocks seen)
    /\ obsidian totals <= count_ids [49] (all_blocks seen)
    /\ rf totals <= count_ids [3886] (all_blocks seen).
Proof.
  intros Hd. exists (report_totals (locations_of seen)).
  split.
  { unfold run_totals, bind. rewrite scan_world_decode, Hd, print_results_run.
    by rewrite (decode_world_stdout _ _ _ Hd). }
  rewrite (report_totals_Permutation _ _ (locations_retained seen)).
  destruct (entries_totals_exact (retained seen)) as (-> & -> & ->).
  unfold retained. split_and!;
    (etrans; [apply count_ids_last_writes_le|apply count_ids_stored_le]).
Qed.

Lemma last_writes_labels (l : list (Chunk * list Block.t)) :
  map (fun o => chunk_key (fst o)) (last_writes l)
  = remove_dups (map (fun o => chunk_key (fst o)) l).
Proof.
  induction l as [|o l IH]; [done|]. simpl. unfold decide_rel.
  destruct (list_elem_of_dec (chunk_key (fst o))
              (map (fun o' => chunk_key (fst o')) l)) as [Hin|Hin].
  - by rewrite decide_True by done.
  - rewrite decide_False by done. simpl. by rewrite IH.
Qed.

Lemma last_writes_length (l : list (Chunk * list Block.t)) :
  (length (last_writes l) <= length l)%nat.
Proof.
  induction l as [|o l IH]; [done|]. simpl. destruct (decide _); simpl; lia.
Qed.

(** X15: a run that ends normally prints one line per distinct label among
    the processed chunks with a non-empty mapping, and three more; that is
    at most one line per processed chunk, and three more. *)
Theorem printed_line_count s seen s' :
  decode_world s = (Ok seen, s') ->
  exists lines : list string,
    analyze_world_chunks s = (Ok tt, State (world s') (stdout s ++ lines))
    /\ length lines
       = (length (remove_dups (map (fun o => chunk_key (fst o)) (stored seen)))
          + 3)%nat
    /\ (length lines <= length seen + 3)%nat.
Proof.
  intros Hd. exists (report_lines (locations_of seen)).
  split; [by rewrite analyze_world_chunks_run, Hd|].
  assert (length (locations_of seen)
          = length (remove_dups (map (fun o => chunk_key (fst o)) (stored seen))))
    as Hlen.
  { rewrite (Permutation_length (locations_retained seen)), length_map.
    unfold retained. by rewrite <- last_writes_labels, length_map. }
  unfold report_lines. rewrite length_app, length_map, Hlen. simpl.
  split; [done|].
  pose proof (length_filter (fun o : Chunk * list Block.t =>
                count_blocks_in_chunk (snd o) <> []) seen) as Hf.
  fold (stored seen) in Hf.
  assert (length (remove_dups (map (fun o => chunk_key (fst o)) (stored seen)))
          <= length (stored seen))%nat as Hd'.
  { rewrite <- last_writes_labels, length_map. apply last_writes_length. }
  lia.
Qed.

(** X16: the loop over the chunks of a file stops at the first chunk that
    cannot be decoded: the exception leaves [process_file] in the state the
    failing call left, whatever chunks follow in the file; they are never
    asked for. *)
Theorem failing_chunk_stops_file (file : File)
    (decoded_ok todo : list Chunk) chunk report report1 s (w0 w' : World) s1 e :
  get_list_of_chunks_by_mca file (world s)
    = (Ok (decoded_ok ++ chunk :: todo), w0) ->
  for_each process_chunk decoded_ok report (State w0 (stdout s))
    = (Ok report1, s1) ->
  get_chunk_matrice chunk (world s1) = (Raise e, w') ->
  process_file file report s = (Raise e, State w' (stdout s1)).
Proof.
  intros Hlist Hok Hfail. unfold process_file, bind, call. rewrite Hlist.
  eapply for_each_raise; [exact Hok|].
  unfold process_chunk, bind, call. by rewrite Hfail.
Qed.

(** X17: after a chunk is handled, its label is a key of the location report
    exactly when it was one before or the chunk has a non-air block. *)
Theorem chunk_reported_iff_non_air chunk (blocks : list Block.t) report :
  chunk_key chunk
    ∈ Dict.keys (store_chunk_counts chunk (count_blocks_in_chunk blocks) report)
  <-> chunk_key chunk ∈ Dict.keys report
      \/ Exists (fun b => Block.id b <> 0) blocks.
Proof.
  unfold store_chunk_counts.
  destruct (count_blocks_in_chunk blocks) as [|c cs] eqn:Hc.
  - apply count_empty in Hc. split; [by left|]. intros [?|Hex]; [done|].
    apply Exists_exists in Hex as (b & Hb & Hid). exfalso.
    assert (b ∈ filter (fun b => Block.id b <> 0) blocks) as Hin
      by (by apply list_elem_of_filter).
    rewrite Hc in Hin. by apply elem_of_nil in Hin.
  - split; [intros _; right|intros _].
    + destruct (filter (fun b => Block.id b <> 0) blocks) as [|b l] eqn:Hf.
      { apply count_empty in Hf. congruence. }
      assert (b ∈ filter (fun b => Block.id b <> 0) blocks) as Hin
        by (rewrite Hf; left).
      apply list_elem_of_filter in Hin as [Hid Hb].
      apply Exists_exists. eauto.
    + rewrite keys_set. destruct (Dict.mem _ report) eqn:Hm.
      * by apply mem_keys.
      * apply elem_of_app. right. by apply list_elem_of_singleton.
Qed.
End MoreRuns.

Lemma find_blocks_in_chunks_raises_witness :
  @decode_chunks _ _ _ _ (mem_chunks corrupt_world)
    [rf_chunk; corrupt_chunk; air_chunk] start
    = (Raise "corrupt chunk", State 2%nat [])
  /\ @find_blocks_in_chunks _ _ _ _ (mem_chunks corrupt_world) 3886
       [rf_chunk; corrupt_chunk; air_chunk] start
     = (Raise "corrupt chunk", State 2%nat []).
Proof.
  split; [reflexivity|].
  apply (@find_blocks_in_chunks_raises _ _ _ _ (mem_chunks corrupt_world)).
  reflexivity.
Defined.

Lemma find_blocks_in_chunks_total_witness :
  exists decoded : list (list Block.t),
    @decode_chunks _ _ _ _ (mem_chunks sample_world) [rf_chunk; air_chunk] start
      = (Ok decoded, State 2%nat [])
    /\ exists results : list (list (Z * Z * Z)),
         @find_blocks_in_chunks _ _ _ _ (mem_chunks sample_world) 3886
           [rf_chunk; air_chunk] start = (Ok results, State 2%nat [])
         /\ Zsum (map (fun entry => Zsum (Dict.values entry)) results) = 4.
Proof.
  eexists. split; [reflexivity|].
  destruct (@find_blocks_in_chunks_total _ _ _ _ (mem_chunks sample_world) 3886
              [rf_chunk; air_chunk] start _ _ eq_refl)
    as (results & Hrun & Hsum & _).
  exists results. split; [exact Hrun|]. rewrite Hsum. reflexivity.
Defined.

Lemma last_write_wins_witness :
  count_blocks_in_chunk [Block.mk 49 4 5 6] <> []
  /\ Dict.lookup "x:0, z:0"
       (@locations_of _ _ _ _ (mem_chunks overwritten_world)
          (overwritten_seen ++ [(air_chunk, [Block.mk 0 0 0 0])]))
     = Some [(Some "obsidian", 1)].
Proof.
  split; [done|].
  apply (@last_write_wins _ _ _ _ (mem_chunks overwritten_world)
           [(mkChunk 0 0 (Ok [Block.mk 54 1 2 3]), [Block.mk 54 1 2 3])]
           [(air_chunk, [Block.mk 0 0 0 0])]
           (mkChunk 0 0 (Ok [Block.mk 49 4 5 6]), [Block.mk 49 4 5 6])).
  - done.
  - repeat constructor.
Defined.

Lemma air_only_world_prints_zero_totals_witness :
  @decode_world _ _ _ _ (mem_chunks air_world) start
    = (Ok [(air_chunk, [Block.mk 0 0 0 0])], State 4%nat [])
  /\ Forall (fun o : MemChunk * list Block.t =>
       Forall (fun b => Block.id b = 0) (snd o))
       [(air_chunk, [Block.mk 0 0 0 0])]
  /\ @analyze_world_chunks _ _ _ _ (mem_chunks air_world) start
     = (Ok tt,
        State 4%nat
          ["Total chests: 0"; "Total obsidian: 0"; "Total RF blocks: 0"]).
Proof.
  assert (Forall (fun o : MemChunk * list Block.t =>
            Forall (fun b => Block.id b = 0) (snd o))
            [(air_chunk, [Block.mk 0 0 0 0])]) as Hair
    by (repeat constructor).
  split; [reflexivity|]. split; [exact Hair|].
  exact (@air_only_world_prints_zero_totals _ _ _ _ (mem_chunks air_world)
           start _ _ eq_refl Hair).
Defined.

Lemma totals_never_overcount_witness :
  @decode_world _ _ _ _ (mem_chunks overwritten_world) start
    = (Ok overwritten_seen, State 4%nat [])
  /\ exists totals : Totals,
       @run_totals _ _ _ _ (mem_chunks overwritten_world) start
         = (Ok totals, State 4%nat ["x:0, z:0: {'obsidian': 1}"])
       /\ chest totals <= 1.
Proof.
  split; [reflexivity|].
  destruct (@totals_never_overcount _ _ _ _ (mem_chunks overwritten_world)
              start _ _ eq_refl) as (totals & Hrun & Hchest & _).
  exists totals. split; [exact Hrun|exact Hchest].
Defined.

Lemma printed_line_count_witness :
  exists seen : list (MemChunk * list Block.t),
    @decode_world _ _ _ _ (mem_chunks sample_world) start
      = (Ok seen, State 6%nat [])
    /\ exists lines : list string,
         @analyze_world_chunks _ _ _ _ (mem_chunks sample_world) start
           = (Ok tt, State 6%nat lines)
         /\ length lines = 5%nat.
Proof.
  eexists. split; [reflexivity|].
  destruct (@printed_line_count _ _ _ _ (mem_chunks sample_world)
              start _ _ eq_refl) as (lines & Hrun & Hlen & _).
  exists lines. split; [exact Hrun|]. rewrite Hlen. reflexivity.
Defined.

Lemma failing_chunk_stops_file_witness :
  @get_list_of_chunks_by_mca _ _ _ _ (mem_chunks corrupt_world)
    (Ok [rf_chunk; corrupt_chunk; air_chunk]) 1%nat
    = (Ok ([rf_chunk] ++ corrupt_chunk :: [air_chunk]), 2%nat)
  /\ @get_chunk_matrice _ _ _ _ (mem_chunks corrupt_world) corrupt_chunk 3%nat
     = (Raise "corrupt chunk", 4%nat)
  /\ @process_file _ _ _ _ (mem_chunks corrupt_world)
       (Ok [rf_chunk; corrupt_chunk; air_chunk]) [] (State 1%nat [])
     = (Raise "corrupt chunk", State 4%nat []).
Proof.
  split; [reflexivity|]. split; [reflexivity|].
  apply (@failing_chunk_stops_file _ _ _ _ (mem_chunks corrupt_world)
           (Ok [rf_chunk; corrupt_chunk; air_chunk]) [rf_chunk] [air_chunk]
           corrupt_chunk [] [("x:80, z:-48", [(Some "rf", 4)])]
           (State 1%nat []) 2%nat 4%nat (State 3%nat []) "corrupt chunk");
    reflexivity.
Defined.
